(** * Healthcare data pipeline (main.py): cleaning, anomaly detection, summary

    A shallow embedding of the functions of [main.py] ([load_data],
    [clean_data], [visualize_data], [detect_anomalies],
    [summary_statistics] and [main]), over a small model of the pandas
    operations they call.

    Modelling conventions.
    - A cell is missing ([NA]; NaN, None, pd.NA and NaT are identified), a
      number, a text or a timestamp. A column that mixes several missing
      markers, which pandas keeps apart when it compares rows and which
      [pd.read_csv] does not produce, is outside the model.
    - Numbers are exact rationals ([Q]): the binary64 rounding of the
      program's floats and the infinities are not modelled. A printed
      statistic is the exact value, which the program's result rounds; the
      comparison of a score with 3 is exact, so it can differ from the
      program's when the exact score is at 3, and the theorem on the
      returned rows leaves the [margin] around 3 undecided.
    - Texts are [string]s read as ASCII text.
    - A table is column-major, as a pandas DataFrame: an index of row
      labels and an ordered list of named columns, each with its dtype.
    - The parsers and printers of pandas that the program relies on
      (number and date parsing, the text form of a number or of a
      timestamp) are the fields of the class [PandasConversions]; the
      theorems hold for every instance.
    - Reading the file and drawing are the program's outside world:
      [pd.read_csv] is a function from the path to a table or an
      exception, the seaborn and matplotlib calls are recorded in order,
      and a plotting surface says which of them raise. What a chart looks
      like is not modelled. *)

From Stdlib Require Import List String Ascii Bool Arith PeanoNat Lia.
From Stdlib Require Import ZArith QArith Qabs Qround Psatz.
From Stdlib Require Import Reals Qreals.
From Stdlib Require Import Sorted Permutation.
Import ListNotations.

Local Open Scope string_scope.
Local Open Scope list_scope.

(** ** Cells, columns, tables *)

Inductive cell : Type :=
| NA
| Num (q : Q)
| Str (s : string)
| Date (t : Z).

Inductive dtype : Type := Numeric | Object | Datetime.

Record Series : Type := mkSeries { dtype_of : dtype; values : list cell }.

Record DataFrame : Type := mkFrame {
  index : list nat;
  columns : list (string * Series)
}.

(** [pd.DataFrame()] *)
Definition empty_frame : DataFrame := mkFrame [] [].

Definition is_na (c : cell) : bool :=
  match c with NA => true | _ => false end.

(** Equality of two cells as [duplicated] sees it: missing equals missing
    (the model has one missing marker), numbers are compared by value. *)
Definition cell_eqb (a b : cell) : bool :=
  match a, b with
  | NA, NA => true
  | Num p, Num q => Qeq_bool p q
  | Str s, Str t => String.eqb s t
  | Date s, Date t => Z.eqb s t
  | _, _ => false
  end.

(** ** Columns by name *)

Fixpoint getitem (name : string) (cols : list (string * Series)) : option Series :=
  match cols with
  | [] => None
  | (n, s) :: rest => if String.eqb n name then Some s else getitem name rest
  end.

(** [df[name] = s]: an existing column is replaced in place, a new one is
    appended. *)
Fixpoint setitem (name : string) (s : Series) (cols : list (string * Series))
  : list (string * Series) :=
  match cols with
  | [] => [(name, s)]
  | (n, s0) :: rest =>
      if String.eqb n name then (n, s) :: rest else (n, s0) :: setitem name s rest
  end.

(** [name in df.columns] *)
Definition has_column (name : string) (df : DataFrame) : bool :=
  match getitem name (columns df) with Some _ => true | None => false end.

(** [df[name]] where the column is known to exist. *)
Definition col (name : string) (df : DataFrame) : Series :=
  match getitem name (columns df) with
  | Some s => s
  | None => mkSeries Object []
  end.

Definition set_col (name : string) (s : Series) (df : DataFrame) : DataFrame :=
  mkFrame (index df) (setitem name s (columns df)).

(** ** Boolean masks *)

Definition mask_or (a b : list bool) : list bool :=
  map (fun p => orb (fst p) (snd p)) (combine a b).

Definition mask_not (a : list bool) : list bool := map negb a.

(** [l[mask]]: the entries of [l] at the positions where [mask] holds. *)
Fixpoint select {A : Type} (mask : list bool) (l : list A) : list A :=
  match mask, l with
  | b :: m, x :: r => if b then x :: select m r else select m r
  | _, _ => []
  end.

(** The cells of [l] where [mask] holds become missing; the others stay. *)
Fixpoint set_na_where (mask : list bool) (l : list cell) : list cell :=
  match l with
  | [] => []
  | c :: r =>
      match mask with
      | [] => c :: r
      | b :: m => (if b then NA else c) :: set_na_where m r
      end
  end.

(** [df.loc[mask, name] = pd.NA] on an existing column: the column keeps
    its dtype (a numeric column stays numeric, with NaN). *)
Definition loc_set_na (mask : list bool) (name : string) (df : DataFrame) : DataFrame :=
  match getitem name (columns df) with
  | Some s => set_col name (mkSeries (dtype_of s) (set_na_where mask (values s))) df
  | None => df
  end.

(** ** Comparisons of a numeric column with a scalar (NaN compares false) *)

Definition Qltb (p q : Q) : bool := negb (Qle_bool q p).

Definition lt_scalar (s : Series) (k : Q) : list bool :=
  map (fun c => match c with Num q => Qltb q k | _ => false end) (values s).

Definition gt_scalar (s : Series) (k : Q) : list bool :=
  map (fun c => match c with Num q => Qltb k q | _ => false end) (values s).

(** [s.between(lo, hi)], both ends included. *)
Definition between (lo hi : Q) (s : Series) : list bool :=
  map (fun c => match c with
                | Num q => Qle_bool lo q && Qle_bool q hi
                | _ => false
                end) (values s).

(** [s.isin(l)] for a list of texts. *)
Definition isin (l : list string) (s : Series) : list bool :=
  map (fun c => match c with
                | Str t => existsb (String.eqb t) l
                | _ => false
                end) (values s).

(** ** Text operations (the [.str] accessor) *)

(** Python's [str.isspace] on the ASCII range: tab, line feed, vertical
    tab, form feed, carriage return, the four separators 28..31, space. *)
Definition is_space (c : ascii) : bool :=
  let n := nat_of_ascii c in
  (((9 <=? n) && (n <=? 13)) || ((28 <=? n) && (n <=? 32)))%nat.

Definition is_digit (c : ascii) : bool :=
  let n := nat_of_ascii c in ((48 <=? n) && (n <=? 57))%nat.

Definition lower_char (c : ascii) : ascii :=
  let n := nat_of_ascii c in
  if ((65 <=? n) && (n <=? 90))%nat then ascii_of_nat (n + 32)%nat else c.

Fixpoint lstrip (s : string) : string :=
  match s with
  | EmptyString => EmptyString
  | String c r => if is_space c then lstrip r else s
  end.

Fixpoint rstrip (s : string) : string :=
  match s with
  | EmptyString => EmptyString
  | String c r =>
      match rstrip r with
      | EmptyString => if is_space c then EmptyString else String c EmptyString
      | r' => String c r'
      end
  end.

Definition strip (s : string) : string := rstrip (lstrip s).

Fixpoint lower (s : string) : string :=
  match s with
  | EmptyString => EmptyString
  | String c r => String (lower_char c) (lower r)
  end.

(** [re.sub(r"\D", "", s)]: the digits of [s], in order. *)
Fixpoint remove_non_digits (s : string) : string :=
  match s with
  | EmptyString => EmptyString
  | String c r =>
      if is_digit c then String c (remove_non_digits r) else remove_non_digits r
  end.

(** The literal [pat] occurs in [s]. *)
Fixpoint contains (pat s : string) : bool :=
  String.prefix pat s ||
  match s with
  | EmptyString => false
  | String _ r => contains pat r
  end.

(** [s.split(sep)] for a one-character separator. *)
Fixpoint split_on (sep : ascii) (s : string) : list string :=
  match s with
  | EmptyString => [EmptyString]
  | String c r =>
      if Ascii.eqb c sep then EmptyString :: split_on sep r
      else match split_on sep r with
           | [] => [String c EmptyString]
           | w :: ws => String c w :: ws
           end
  end.

Definition on_text (f : string -> cell) (c : cell) : cell :=
  match c with Str s => f s | _ => NA end.

Definition str_strip (s : Series) : Series :=
  mkSeries Object (map (on_text (fun t => Str (strip t))) (values s)).

Definition str_lower (s : Series) : Series :=
  mkSeries Object (map (on_text (fun t => Str (lower t))) (values s)).

Definition str_replace_non_digits (s : Series) : Series :=
  mkSeries Object (map (on_text (fun t => Str (remove_non_digits t))) (values s)).

Definition str_len (s : Series) : Series :=
  mkSeries Numeric
    (map (on_text (fun t => Num (inject_Z (Z.of_nat (String.length t))))) (values s)).

(** [s.str.contains(pat, na=False)] for a literal pattern. *)
Definition str_contains (pat : string) (s : Series) : list bool :=
  map (fun c => match c with Str t => contains pat t | _ => false end) (values s).

(** [s.str.split(sep, expand=True)], as the list of the parts of each row. *)
Definition str_split (sep : ascii) (s : Series) : list (list string) :=
  map (fun c => match c with Str t => split_on sep t | _ => [] end) (values s).

(** [s.replace({k1: v1, ...})]: a cell equal to a key becomes its value. *)
Fixpoint lookup_text (k : string) (d : list (string * string)) : option string :=
  match d with
  | [] => None
  | (a, b) :: r => if String.eqb a k then Some b else lookup_text k r
  end.

Definition replace_values (d : list (string * string)) (s : Series) : Series :=
  mkSeries (dtype_of s)
    (map (fun c => match c with
                   | Str t => match lookup_text t d with
                              | Some v => Str v
                              | None => c
                              end
                   | _ => c
                   end) (values s)).

(** ** Numeric reductions (missing values are skipped) *)

Fixpoint numbers (l : list cell) : list Q :=
  match l with
  | [] => []
  | Num q :: r => q :: numbers r
  | _ :: r => numbers r
  end.

Definition qsum (l : list Q) : Q := fold_right Qplus 0 l.

Definition qlen (l : list Q) : Q := inject_Z (Z.of_nat (List.length l)).

Fixpoint insert_sorted (x : Q) (l : list Q) : list Q :=
  match l with
  | [] => [x]
  | y :: r => if Qle_bool x y then x :: l else y :: insert_sorted x r
  end.

Definition sort (l : list Q) : list Q := fold_right insert_sorted [] l.

(** The arithmetic mean, exact; not-a-number for no value. *)
Definition mean_of (l : list Q) : option Q :=
  match l with
  | [] => None
  | _ => Some (qsum l / qlen l)
  end.

(** The middle order statistic, or the mean of the two middle ones. *)
Definition median_of (l : list Q) : option Q :=
  match l with
  | [] => None
  | _ =>
      let s := sort l in
      let n := List.length s in
      if Nat.even n
      then Some ((nth (n / 2 - 1)%nat s 0 + nth (n / 2)%nat s 0) / 2)
      else Some (nth (n / 2)%nat s 0)
  end.

Definition min_of (l : list Q) : option Q :=
  match sort l with [] => None | x :: _ => Some x end.

Definition max_of (l : list Q) : option Q :=
  match rev (sort l) with [] => None | x :: _ => Some x end.

(** The quantile [p] with linear interpolation between the order
    statistics at the positions around [p * (n - 1)]. *)
Definition quantile_of (p : Q) (l : list Q) : option Q :=
  match l with
  | [] => None
  | _ =>
      let s := sort l in
      let n := List.length s in
      let pos := p * inject_Z (Z.of_nat (n - 1)%nat) in
      let lo := Z.to_nat (Qfloor pos) in
      let hi := Nat.min (lo + 1)%nat (n - 1)%nat in
      let frac := pos - inject_Z (Z.of_nat lo) in
      Some (nth lo s 0 + frac * (nth hi s 0 - nth lo s 0))
  end.

Definition mean (s : Series) : option Q := mean_of (numbers (values s)).
Definition median (s : Series) : option Q := median_of (numbers (values s)).
Definition smin (s : Series) : option Q := min_of (numbers (values s)).
Definition smax (s : Series) : option Q := max_of (numbers (values s)).
Definition quantile (ps : list Q) (s : Series) : list (Q * option Q) :=
  map (fun p => (p, quantile_of p (numbers (values s)))) ps.

(** [s.fillna(v)]; filling with NaN changes nothing. *)
Definition fillna (v : option Q) (s : Series) : Series :=
  match v with
  | Some m => mkSeries (dtype_of s)
                (map (fun c => match c with NA => Num m | _ => c end) (values s))
  | None => s
  end.

(** ** Rows: duplicates, row selection, preview *)

(** The cells of row [i], one per column. *)
Definition row_at (cols : list (string * Series)) (i : nat) : list cell :=
  map (fun p => nth i (values (snd p)) NA) cols.

Fixpoint row_eqb (r1 r2 : list cell) : bool :=
  match r1, r2 with
  | [], [] => true
  | a :: x, b :: y => cell_eqb a b && row_eqb x y
  | _, _ => false
  end.

(** [df.duplicated()]: a row is a duplicate when an earlier row equals it. *)
Definition duplicated (df : DataFrame) : list bool :=
  map (fun i =>
         existsb (fun j => row_eqb (row_at (columns df) j) (row_at (columns df) i))
                 (seq 0 i))
      (seq 0 (List.length (index df))).

(** [df[mask]]: the rows where [mask] holds, with their labels. *)
Definition boolean_index (mask : list bool) (df : DataFrame) : DataFrame :=
  mkFrame (select mask (index df))
          (map (fun p => (fst p, mkSeries (dtype_of (snd p)) (select mask (values (snd p)))))
               (columns df)).

(** [df.drop_duplicates()]: the first occurrence of every row is kept, with
    its label; a table without columns is returned as it is. *)
Definition drop_duplicates (df : DataFrame) : DataFrame :=
  match columns df with
  | [] => df
  | _ => boolean_index (mask_not (duplicated df)) df
  end.

(** [df.head(n)] *)
Definition head (n : nat) (df : DataFrame) : DataFrame :=
  mkFrame (firstn n (index df))
          (map (fun p => (fst p, mkSeries (dtype_of (snd p)) (firstn n (values (snd p)))))
               (columns df)).

(** The positions of the label [l] in an index. *)
Fixpoint positions_from (start : nat) (l : nat) (idx : list nat) : list nat :=
  match idx with
  | [] => []
  | x :: r =>
      if Nat.eqb x l then start :: positions_from (S start) l r
      else positions_from (S start) l r
  end.

Definition positions (l : nat) (idx : list nat) : list nat := positions_from 0 l idx.

(** The rows at the given positions, in that order. *)
Definition take_rows (ps : list nat) (df : DataFrame) : DataFrame :=
  mkFrame (map (fun p => nth p (index df) 0%nat) ps)
          (map (fun c => (fst c, mkSeries (dtype_of (snd c))
                                   (map (fun p => nth p (values (snd c)) NA) ps)))
               (columns df)).

Inductive exn : Type :=
| KeyError (key : string)
| LabelError (label : nat).

Inductive outcome (A : Type) : Type :=
| Returned (a : A)
| Raised (e : exn).
Arguments Returned {A} a.
Arguments Raised {A} e.

(** [df.loc[labels]]: every row carrying one of the labels, label after
    label; a label that the index does not have raises. *)
Fixpoint loc_positions (labels : list nat) (idx : list nat) : outcome (list nat) :=
  match labels with
  | [] => Returned []
  | l :: r =>
      match positions l idx with
      | [] => Raised (LabelError l)
      | ps => match loc_positions r idx with
              | Returned qs => Returned (ps ++ qs)
              | Raised e => Raised e
              end
      end
  end.

Definition loc (labels : list nat) (df : DataFrame) : outcome DataFrame :=
  match loc_positions labels (index df) with
  | Returned ps => Returned (take_rows ps df)
  | Raised e => Raised e
  end.

(** ** Standard scores

    A standard score is the real number [z_num / sqrt z_var]; it is
    not-a-number when [z_var] is zero (0/0). Keeping numerator and variance
    apart keeps the score exact without a square root. *)

Record zval : Type := mkZ { z_num : Q; z_var : Q }.

(** Population variance of a non-empty list around its mean [m]. *)
Definition variance_about (m : Q) (l : list Q) : Q :=
  qsum (map (fun x => (x - m) * (x - m)) l) / qlen l.

(** [scipy.stats.zscore(a)] with its defaults (ddof = 0):
    [(a - a.mean()) / a.std()]. *)
Definition zscore (l : list Q) : list zval :=
  match mean_of l with
  | None => []
  | Some m => map (fun x => mkZ (x - m) (variance_about m l)) l
  end.

(** [np.abs] *)
Definition z_abs (z : zval) : zval := mkZ (Qabs (z_num z)) (z_var z).

(** [z > k] for a threshold [0 <= k], on the exact score; a not-a-number
    score compares false. *)
Definition z_gt (z : zval) (k : Q) : bool :=
  Qltb 0 (z_var z) && Qltb 0 (z_num z) &&
  Qltb (k * k * z_var z) (z_num z * z_num z).

(** ** Standard output *)

Inductive out : Type :=
| OText (s : string)
| ONum (x : option Q)
| OFrame (df : DataFrame)
| OQuantiles (l : list (Q * option Q)).

(** One call of [print]: the pieces of its line. *)
Definition line : Type := list out.

(** ** Effects of [detect_anomalies]

    The function reads the caller's table, prints and may raise. A
    computation takes the world (the caller's table and what was printed
    so far) to a new world and an outcome. *)

Record world : Type := mkWorld { table : DataFrame; stdout : list line }.

Definition M (A : Type) : Type := world -> world * outcome A.

Definition ret {A : Type} (a : A) : M A := fun w => (w, Returned a).

Definition raise {A : Type} (e : exn) : M A := fun w => (w, Raised e).

Definition bind {A B : Type} (m : M A) (f : A -> M B) : M B :=
  fun w =>
    match m w with
    | (w', Returned a) => f a w'
    | (w', Raised e) => (w', Raised e)
    end.

Notation "x <- m ;; k" := (bind m (fun x => k))
  (at level 61, m at next level, right associativity).
Notation "m ;;; k" := (bind m (fun _ => k))
  (at level 61, right associativity).

(** The table the parameter [df] refers to. *)
Definition get_table : M DataFrame := fun w => (w, Returned (table w)).

Definition print (l : line) : M unit :=
  fun w => (mkWorld (table w) (stdout w ++ [l]), Returned tt).

(** Lift a pure step that may raise. *)
Definition lift {A : Type} (o : outcome A) : M A := fun w => (w, o).

Definition newline : string := String (ascii_of_nat 10) EmptyString.

(** ** visualize_data

    The calls that [visualize_data] makes on seaborn and matplotlib, in
    order; [ShowPlot] is [plt.show()]. *)

Inductive plot_call : Type :=
| Histplot (data : Series) (kde : bool)
| Boxplot (x y : string) (data : DataFrame)
| Lineplot (x y : string) (data : DataFrame)
| Scatterplot (x y : string) (data : DataFrame)
| Title (s : string)
| Xlabel (s : string)
| Ylabel (s : string)
| ShowPlot.

Definition visualize_data (df : DataFrame) : list plot_call :=
  (if has_column "Cholesterol" df
   then [Histplot (col "Cholesterol" df) true;
         Title "Distribution of Cholesterol Levels";
         Xlabel "Cholesterol"; Ylabel "Frequency"; ShowPlot]
   else []) ++
  (if has_column "Cholesterol" df && has_column "Gender" df
   then [Boxplot "Gender" "Cholesterol" df;
         Title "Cholesterol Levels by Gender"; ShowPlot]
   else []) ++
  (if has_column "Visit Date" df && has_column "Cholesterol" df
   then [Lineplot "Visit Date" "Cholesterol" df;
         Title "Cholesterol Over Time";
         Xlabel "Visit Date"; Ylabel "Cholesterol"; ShowPlot]
   else []) ++
  (if has_column "Age" df && has_column "Cholesterol" df
   then [Scatterplot "Age" "Cholesterol" df;
         Title "Age vs Cholesterol";
         Xlabel "Age"; Ylabel "Cholesterol"; ShowPlot]
   else []).

(** A chart is one of the four plotting calls. *)
Definition is_chart (p : plot_call) : bool :=
  match p with
  | Histplot _ _ | Boxplot _ _ _ | Lineplot _ _ _ | Scatterplot _ _ _ => true
  | _ => false
  end.

Definition is_show (p : plot_call) : bool :=
  match p with ShowPlot => true | _ => false end.

(** ** load_data and the events of a whole run

    What the program does that can be observed, in order: a printed line,
    the report of [df.info()], a call on the plotting surface. *)

Inductive event : Type :=
| Printed (l : line)
| InfoPrinted (df : DataFrame)
| Drawn (p : plot_call).

(** What [pd.read_csv] makes of a path: a table, or an exception (the file
    is missing, unreadable or not delimited text). *)
Inductive csv_result : Type :=
| CsvTable (df : DataFrame)
| CsvError (message : string).

(** How a run ends when it does not return: [pd.read_csv] raised, a
    plotting call raised, or [detect_anomalies] raised. *)
Inductive failure : Type :=
| LoadFailure (message : string)
| PlotFailure (message : string)
| RuntimeFailure (e : exn).

(** The plotting calls are made in order on a surface [draw], which says
    for each call whether it raises ([Some message]); the calls that
    returned, and the exception that stopped them if any. *)
Fixpoint run_plots (draw : plot_call -> option string) (calls : list plot_call)
  : list plot_call * option string :=
  match calls with
  | [] => ([], None)
  | c :: rest =>
      match draw c with
      | Some m => ([], Some m)
      | None => let (done, stopped) := run_plots draw rest in (c :: done, stopped)
      end
  end.

(** [load_data(file_path)]: [df.info()] prints its report and returns
    None, which [print] then prints. *)
Definition load_data (read_csv : string -> csv_result) (file_path : string)
  : list event * csv_result :=
  match read_csv file_path with
  | CsvError m => ([], CsvError m)
  | CsvTable df =>
      ([Printed [OText "Data loaded successfully!"];
        Printed [OFrame (head 15 df)];
        InfoPrinted df;
        Printed [OText "None"]],
       CsvTable df)
  end.

(** ** The pandas conversions

    - [parse_number]: the number a text denotes for [pd.to_numeric];
    - [parse_datetime], [datetime_of_number]: the timestamp that
      [pd.to_datetime(format="mixed", dayfirst=True)] reads from a text or
      from a number;
    - [str_of_number], [str_of_datetime]: the text [astype(str)] gives. *)

Class PandasConversions : Type := {
  parse_number : string -> option Q;
  parse_datetime : string -> option Z;
  datetime_of_number : Q -> option Z;
  str_of_number : Q -> string;
  str_of_datetime : Z -> string
}.

Section Pipeline.

Context {conv : PandasConversions}.

(** [pd.to_numeric(s, errors="coerce")]: a text that is not a number
    becomes missing; a timestamp becomes its integer value. *)
Definition to_numeric_cell (c : cell) : cell :=
  match c with
  | NA => NA
  | Num q => Num q
  | Str t => match parse_number t with Some q => Num q | None => NA end
  | Date t => Num (inject_Z t)
  end.

Definition to_numeric (s : Series) : Series :=
  mkSeries Numeric (map to_numeric_cell (values s)).

(** [pd.to_datetime(s, format="mixed", dayfirst=True, errors="coerce")] *)
Definition to_datetime_cell (c : cell) : cell :=
  match c with
  | NA => NA
  | Date t => Date t
  | Str t => match parse_datetime t with Some d => Date d | None => NA end
  | Num q => match datetime_of_number q with Some d => Date d | None => NA end
  end.

Definition to_datetime (s : Series) : Series :=
  mkSeries Datetime (map to_datetime_cell (values s)).

(** [s.astype(str)]: a missing value becomes the text "nan". *)
Definition text_of (c : cell) : string :=
  match c with
  | NA => "nan"
  | Num q => str_of_number q
  | Str t => t
  | Date t => str_of_datetime t
  end.

Definition astype_str (s : Series) : Series :=
  mkSeries Object (map (fun c => Str (text_of c)) (values s)).

(** ** clean_data, rule by rule *)

Definition clean_visit_date (df : DataFrame) : DataFrame :=
  if has_column "Visit Date" df
  then set_col "Visit Date" (to_datetime (col "Visit Date" df)) df
  else df.

Definition clean_age (df : DataFrame) : DataFrame :=
  if has_column "Age" df
  then
    let df := set_col "Age" (to_numeric (col "Age" df)) df in
    loc_set_na (mask_or (lt_scalar (col "Age" df) 0) (gt_scalar (col "Age" df) 120))
               "Age" df
  else df.

Definition clean_gender (df : DataFrame) : DataFrame :=
  if has_column "Gender" df
  then
    let df := set_col "Gender" (str_lower (str_strip (astype_str (col "Gender" df)))) df in
    let df := set_col "Gender"
                (replace_values [("m", "male"); ("f", "female")] (col "Gender" df)) df in
    loc_set_na (mask_not (isin ["male"; "female"] (col "Gender" df))) "Gender" df
  else df.

Definition clean_phone_number (df : DataFrame) : DataFrame :=
  if has_column "Phone Number" df
  then
    let df := set_col "Phone Number"
                (str_replace_non_digits (astype_str (col "Phone Number" df))) df in
    loc_set_na (mask_not (between 7 15 (str_len (col "Phone Number" df))))
               "Phone Number" df
  else df.

Definition clean_email (df : DataFrame) : DataFrame :=
  if has_column "Email" df
  then loc_set_na (mask_not (str_contains "@" (astype_str (col "Email" df)))) "Email" df
  else df.

Definition clean_cholesterol (df : DataFrame) : DataFrame :=
  if has_column "Cholesterol" df
  then
    let df := set_col "Cholesterol" (to_numeric (col "Cholesterol" df)) df in
    let df := loc_set_na (mask_or (lt_scalar (col "Cholesterol" df) 50)
                                  (gt_scalar (col "Cholesterol" df) 400))
                         "Cholesterol" df in
    set_col "Cholesterol"
      (fillna (median (col "Cholesterol" df)) (col "Cholesterol" df)) df
  else df.

(** The split of Blood Pressure is computed and dropped. *)
Definition clean_blood_pressure (df : DataFrame) : DataFrame :=
  if has_column "Blood Pressure" df
  then let bp_split := str_split "/" (astype_str (col "Blood Pressure" df)) in df
  else df.

Definition clean_columns (df : DataFrame) : DataFrame :=
  let df := clean_visit_date df in
  let df := clean_age df in
  let df := clean_gender df in
  let df := clean_phone_number df in
  let df := clean_email df in
  let df := clean_cholesterol df in
  clean_blood_pressure df.

Definition clean_data (df : DataFrame) : DataFrame * list line :=
  let df := drop_duplicates df in
  let df := clean_columns df in
  (df, [[OText "Data cleaning complete!"]; [OFrame (head 15 df)]]).

(** ** detect_anomalies *)

(** [s.dropna()] on a numeric column, each value with its row label. *)
Fixpoint dropna (idx : list nat) (l : list cell) : list (nat * Q) :=
  match idx, l with
  | i :: idx', c :: r =>
      match c with
      | Num q => (i, q) :: dropna idx' r
      | _ => dropna idx' r
      end
  | _, _ => []
  end.

(** [df[column]] *)
Definition column_of (column : string) (df : DataFrame) : outcome Series :=
  match getitem column (columns df) with
  | Some s => Returned s
  | None => Raised (KeyError column)
  end.

Definition detect_anomalies (column : string) : M DataFrame :=
  df <- get_table ;;
  if negb (has_column column df)
  then
    print [OText "No column '"; OText column; OText "' for anomaly detection."] ;;;
    ret empty_frame
  else
    s <- lift (column_of column df) ;;
    let vals := dropna (index df) (values (to_numeric s)) in
    let z_scores := map z_abs (zscore (map snd vals)) in
    let labels := select (map (fun z => z_gt z 3) z_scores) (map fst vals) in
    anomalies <- lift (loc labels df) ;;
    print [OText "Anomalies detected in '"; OText column; OText "':"] ;;;
    print [OFrame anomalies] ;;;
    ret anomalies.

(** ** summary_statistics *)

Definition is_number_dtype (d : dtype) : bool :=
  match d with Numeric => true | _ => false end.

(** [df.select_dtypes(include=np.number).columns] *)
Definition select_dtypes_number (df : DataFrame) : list string :=
  map fst (filter (fun p => is_number_dtype (dtype_of (snd p))) (columns df)).

Definition summary_block (df : DataFrame) (c : string) : list line :=
  [ [OText newline; OText "Summary Statistics for '"; OText c; OText "':"];
    [OText "Mean: "; ONum (mean (col c df))];
    [OText "Median: "; ONum (median (col c df))];
    [OText "Min: "; ONum (smin (col c df)); OText ", Max: "; ONum (smax (col c df))];
    [OText "Quartiles:"];
    [OQuantiles (quantile [1 # 4; 1 # 2; 3 # 4] (col c df))] ].

Definition summary_statistics (df : DataFrame) : list line :=
  flat_map (summary_block df) (select_dtypes_number df).

(** ** main

    [read_csv] stands for [pd.read_csv] and [draw] for the plotting
    surface. The table that [clean_data] returns is the one drawn, searched
    for anomalies and summarised; an exception ends the run where it is
    raised. *)

Definition main (read_csv : string -> csv_result) (draw : plot_call -> option string)
  : list event * option failure :=
  match load_data read_csv "healthcare_messy_data.csv" with
  | (loaded, CsvError m) => (loaded, Some (LoadFailure m))
  | (loaded, CsvTable df) =>
      let (df, cleaned) := clean_data df in
      let (drawn, stopped) := run_plots draw (visualize_data df) in
      let shown := loaded ++ map Printed cleaned ++ map Drawn drawn in
      match stopped with
      | Some m => (shown, Some (PlotFailure m))
      | None =>
          let (w, anomalies) := detect_anomalies "Cholesterol" (mkWorld df []) in
          let searched := shown ++ map Printed (stdout w) in
          match anomalies with
          | Raised e => (searched, Some (RuntimeFailure e))
          | Returned _ =>
              (searched ++ map Printed (summary_statistics (table w)), None)
          end
      end
  end.

(** ** Cell-wise reading of the column rules

    Each rule of [clean_data] works on whole columns and masks; the
    functions below say what one rule does to one cell. They are used to
    state and prove the theorems, and are proved equal to the rules. *)

Definition age_cell (c : cell) : cell :=
  match to_numeric_cell c with
  | Num q => if Qltb q 0 || Qltb 120 q then NA else Num q
  | other => other
  end.

Definition gender_cell (c : cell) : cell :=
  let t := lower (strip (text_of c)) in
  let t := match lookup_text t [("m", "male"); ("f", "female")] with
           | Some v => v
           | None => t
           end in
  if existsb (String.eqb t) ["male"; "female"] then Str t else NA.

Definition phone_cell (c : cell) : cell :=
  let d := remove_non_digits (text_of c) in
  let n := inject_Z (Z.of_nat (String.length d)) in
  if Qle_bool 7 n && Qle_bool n 15 then Str d else NA.

Definition email_cell (c : cell) : cell :=
  if contains "@" (text_of c) then c else NA.

(** The Cholesterol value of a cell after coercion and range check. *)
Definition cholesterol_cell (c : cell) : cell :=
  match to_numeric_cell c with
  | Num q => if Qltb q 50 || Qltb 400 q then NA else Num q
  | other => other
  end.

Definition cholesterol_series (s : Series) : Series :=
  let l := map cholesterol_cell (values s) in
  fillna (median_of (numbers l)) (mkSeries Numeric l).

(** Apply [F] to the column [name], when the table has it. *)
Definition map_col (name : string) (F : Series -> Series) (df : DataFrame) : DataFrame :=
  match getitem name (columns df) with
  | Some s => set_col name (F s) df
  | None => df
  end.

(** A column keeps the rows of [mask]. *)
Definition select_series (mask : list bool) (s : Series) : Series :=
  mkSeries (dtype_of s) (select mask (values s)).

(** The rules as maps over one column. *)
Definition age_series (s : Series) : Series :=
  mkSeries Numeric (map age_cell (values s)).

Definition gender_series (s : Series) : Series :=
  mkSeries Object (map gender_cell (values s)).

Definition phone_series (s : Series) : Series :=
  mkSeries Object (map phone_cell (values s)).

Definition email_series (s : Series) : Series :=
  mkSeries (dtype_of s) (map email_cell (values s)).

(** What [fillna v] does to one cell. *)
Definition fill_cell (v : option Q) (c : cell) : cell :=
  match c with
  | NA => match v with Some m => Num m | None => NA end
  | _ => c
  end.

(** A Cholesterol column is clean when it is all missing or all valid. *)
Definition cholesterol_clean (l : list cell) : Prop :=
  Forall (fun c => c = NA) l \/
  Forall (fun c => exists q, c = Num q /\ 50 <= q <= 400) l.

(** The characters of a text. *)
Fixpoint chars (s : string) : list ascii :=
  match s with
  | EmptyString => []
  | String c r => c :: chars r
  end.

(** ** Definitions used to state the theorems on detect_anomalies *)

(** Column lengths agree with the index and the row labels are distinct,
    as in every table that [read_csv] and [clean_data] produce. *)
Definition well_formed (df : DataFrame) : Prop :=
  NoDup (index df) /\
  Forall (fun c => List.length (values (snd c)) = List.length (index df)) (columns df).

(** The printed lines of a run that finds the column. *)
Definition report (column : string) (anomalies : DataFrame) : list line :=
  [[OText "Anomalies detected in '"; OText column; OText "':"]; [OFrame anomalies]].

(** The labels that [detect_anomalies] selects. *)
Definition anomaly_labels (df : DataFrame) (s : Series) : list nat :=
  let vals := dropna (index df) (values (to_numeric s)) in
  select (map (fun z => z_gt z 3) (map z_abs (zscore (map snd vals)))) (map fst vals).

(** The positions where [mask] holds, counted from [start]. *)
Fixpoint indices_where (start : nat) (mask : list bool) : list nat :=
  match mask with
  | [] => []
  | b :: m => if b then start :: indices_where (S start) m
              else indices_where (S start) m
  end.

(** The standard score of the cell [c] exceeds 3 in absolute value, among
    the numbers [nums]. *)
Definition is_anomaly (nums : list Q) (c : cell) : bool :=
  match c with
  | Num x =>
      match mean_of nums with
      | Some m => z_gt (z_abs (mkZ (x - m) (variance_about m nums))) 3
      | None => false
      end
  | _ => false
  end.

(** The sum of the squares. *)
Definition sq_sum (l : list Q) : Q := qsum (map (fun y => y * y) l).

(** ** The specification's reading of coercion and of the threshold

    What coercing a cell to a number gives, written from the
    specification: a number is itself, a text is the number that pandas
    reads from it if there is one, a timestamp is its count, and a missing
    cell or a text that is no number gives nothing. *)

Definition coerced (c : cell) : option Q :=
  match c with
  | NA => None
  | Num q => Some q
  | Str t => parse_number t
  | Date d => Some (inject_Z d)
  end.

(** The numbers of a column after coercion, the missing ones dropped. *)
Definition coerced_numbers (l : list cell) : list Q :=
  flat_map (fun c => match coerced c with Some q => [q] | None => [] end) l.

(** The Cholesterol values that remain valid: the coerced numbers within
    [50,400]. *)
Definition valid_cholesterol (l : list cell) : list Q :=
  filter (fun q => Qle_bool 50 q && Qle_bool q 400) (coerced_numbers l).


(** ** Definitions used to state the theorem on summary_statistics *)

(** The statistic [o] is defined and equals [q]. *)
Definition is_value (o : option Q) (q : Q) : Prop :=
  match o with Some v => v == q | None => False end.

(** The statistics in the specification's words, over the non-missing
    numbers [nums] of a column; [None] is the not-a-number that pandas
    gives when there is no number. *)

Definition sorted_of (nums srt : list Q) : Prop :=
  Permutation nums srt /\ StronglySorted Qle srt.

Definition is_mean (nums : list Q) (o : option Q) : Prop :=
  match o with
  | None => nums = []
  | Some m => nums <> [] /\ m * qlen nums == qsum nums
  end.

Definition is_median (nums : list Q) (o : option Q) : Prop :=
  match o with
  | None => nums = []
  | Some md =>
      nums <> [] /\
      exists srt, sorted_of nums srt /\
        let n := List.length srt in
        (Nat.even n = false -> md = nth (n / 2) srt 0) /\
        (Nat.even n = true -> md = (nth (n / 2 - 1) srt 0 + nth (n / 2) srt 0) / 2)
  end.

Definition is_min (nums : list Q) (o : option Q) : Prop :=
  match o with
  | None => nums = []
  | Some lo => In lo nums /\ forall x, In x nums -> lo <= x
  end.

Definition is_max (nums : list Q) (o : option Q) : Prop :=
  match o with
  | None => nums = []
  | Some hi => In hi nums /\ forall x, In x nums -> x <= hi
  end.

(** Linear interpolation between the order statistics around the position
    [p * (n - 1)]. *)
Definition is_quantile (p : Q) (nums : list Q) (o : option Q) : Prop :=
  match o with
  | None => nums = []
  | Some q =>
      nums <> [] /\
      exists srt (k : nat) (f : Q), sorted_of nums srt /\
        let n := List.length srt in
        p * inject_Z (Z.of_nat (n - 1)) == inject_Z (Z.of_nat k) + f /\
        0 <= f /\ f < 1 /\
        q = nth k srt 0 + f * (nth (Nat.min (k + 1) (n - 1)) srt 0 - nth k srt 0)
  end.

(** ** Definitions used to state the properties of the whole pipeline *)

(** Every column is as long as the index. *)
Definition column_lengths (df : DataFrame) : Prop :=
  Forall (fun c => List.length (values (snd c)) = List.length (index df)) (columns df).

(** Eleven values of which the last is flagged. *)
Definition eleven : list Q := [0; 0; 0; 0; 0; 0; 0; 0; 0; 0; 1].

(** The seven numbers that [summary_statistics] prints for the column [s],
    where defined, lie between [lo] and [hi]. *)
Definition printed_within (lo hi : Q) (s : Series) : Prop :=
  forall q,
    In (Some q) ([mean s; median s; smin s; smax s] ++
                 map snd (quantile [1 # 4; 1 # 2; 3 # 4] s)) ->
    lo <= q <= hi.

(** ** The example tables of the specification *)

Definition gender_example : DataFrame :=
  mkFrame [0; 1; 2; 3; 4; 5; 6]%nat
    [("Gender", mkSeries Object
        [Str "M "; Str " f"; Str "Male"; Str "FEMALE"; Str "unknown"; Str ""; Str "x"])].

Definition phone_example : DataFrame :=
  mkFrame [0; 1; 2]%nat
    [("Phone Number", mkSeries Object [Str "(555) 123-4567"; Str "123"; Str "abc"])].

Definition email_example : DataFrame :=
  mkFrame [0; 1; 2]%nat
    [("Email", mkSeries Object [Str "a@b.com"; Str "not-an-email"; NA])].

Definition cholesterol_example : DataFrame :=
  mkFrame [0; 1; 2; 3; 4]%nat
    [("Cholesterol", mkSeries Numeric [Num 100; Num 200; Num 300; Num 9999; NA])].

Definition summary_example : DataFrame :=
  mkFrame [0; 1; 2; 3]%nat
    [("x", mkSeries Numeric [Num 1; Num 2; Num 3; Num 4])].

End Pipeline.

(** ** Concrete runs

    One instance of the conversions, for the examples: numbers are read
    from unsigned decimal texts, no text or number is read as a date, and
    the text form of a number or of a timestamp is a placeholder. *)

(** An instance of the number parser for the examples: it reads a text
    made of decimal digits only and rejects every other text. *)
Fixpoint digits_value (acc : Z) (s : string) : option Z :=
  match s with
  | EmptyString => Some acc
  | String c r =>
      if is_digit c
      then digits_value (10 * acc + Z.of_nat (nat_of_ascii c - 48)) r
      else None
  end.

Definition parse_digits (s : string) : option Q :=
  match s with
  | EmptyString => None
  | _ => option_map inject_Z (digits_value 0 s)
  end.

Definition no_datetime {A : Type} (x : A) : option Z := None.
Definition plain_text {A : Type} (x : A) : string := "?".

Definition digits_conversions : PandasConversions := {|
  parse_number := parse_digits;
  parse_datetime := no_datetime;
  datetime_of_number := no_datetime;
  str_of_number := plain_text;
  str_of_datetime := plain_text
|}.

Definition run_clean_data : DataFrame -> DataFrame * list line :=
  @clean_data digits_conversions.

Definition run_detect_anomalies : string -> M DataFrame :=
  @detect_anomalies digits_conversions.

Definition age_run : DataFrame :=
  mkFrame [0; 1; 2; 3]%nat
    [("Age", mkSeries Object [Str "42"; Str "abc"; Num 130; Num (-1 # 1)])].

Definition absent_run : world := mkWorld cholesterol_example [].

Definition constant_run : world :=
  mkWorld (mkFrame [0; 1; 2; 3]%nat
             [("x", mkSeries Object [Num 5; NA; Str "5"; Str "abc"])]) [].

(** One hundred values, fifty 9 and fifty 11 (mean 10, standard deviation
    1), followed by the value 20. *)
Definition hundred : list Q := repeat 9 50 ++ repeat 11 50.

Definition outlier_run : world :=
  mkWorld (mkFrame (seq 0 101)
             [("Cholesterol", mkSeries Numeric (map Num (hundred ++ [20])))]) [].

Definition twice_example : DataFrame :=
  mkFrame [0; 1]%nat [("Gender", mkSeries Object [Str "M"; Str "male"])].

Definition distinct_run : DataFrame :=
  mkFrame [0; 1]%nat
    [("Gender", mkSeries Object [Str "M "; Str "f"]);
     ("Cholesterol", mkSeries Object [Str "180"; Str "high"])].

(** A Cholesterol column read as text, with a value out of range, a text
    that is no number and a missing cell. *)
Definition mixed_cholesterol : DataFrame :=
  mkFrame [0; 1; 2; 3; 4; 5]%nat
    [("Cholesterol",
      mkSeries Object [Str "100"; Num 200; Str "300"; Str "9999"; Str "high"; NA])].





(** A text column and a numeric column with a missing value. *)
Definition patients_example : DataFrame :=
  mkFrame [0; 1; 2]%nat
    [("Name", mkSeries Object [Str "ann"; Str "bob"; Str "cy"]);
     ("Age", mkSeries Numeric [Num 30; NA; Num 50])].

(** A table with a repeated row and a column that no rule touches. *)
Definition visits_example : DataFrame :=
  mkFrame [0; 1; 2]%nat
    [("Patient", mkSeries Object [Str "ann"; Str "bob"; Str "ann"]);
     ("Age", mkSeries Object [Str "41"; Str "67"; Str "41"])].

(** Four values, one of them far from the others. *)
Definition small_run : world :=
  mkWorld (mkFrame [0; 1; 2; 3]%nat
             [("Cholesterol", mkSeries Numeric [Num 180; Num 190; Num 200; Num 400])])
          [].

(** A file without a Cholesterol column, and a plotting surface on which
    every call raises. *)
Definition read_gender_csv (path : string) : csv_result := CsvTable gender_example.

Definition no_display (p : plot_call) : option string := Some "no display".

Definition run_main := @main digits_conversions.

(** * Theorems *)

Section PipelineFacts.

Context {conv : PandasConversions}.

(** ** Lemmas on columns by name *)

Lemma getitem_setitem_same name s cols :
  getitem name (setitem name s cols) = Some s.
Proof.
  induction cols as [|[n s0] rest IH]; simpl.
  - now rewrite String.eqb_refl.
  - destruct (String.eqb n name) eqn:E; simpl; rewrite E; auto.
Qed.

Lemma getitem_setitem_other name name' s cols :
  String.eqb name name' = false ->
  getitem name' (setitem name s cols) = getitem name' cols.
Proof.
  intros Hne. induction cols as [|[n s0] rest IH]; simpl.
  - now rewrite Hne.
  - destruct (String.eqb n name) eqn:E; simpl.
    + apply String.eqb_eq in E. subst n. now rewrite Hne.
    + now rewrite IH.
Qed.

Lemma setitem_id name s cols :
  getitem name cols = Some s -> setitem name s cols = cols.
Proof.
  induction cols as [|[n s0] rest IH]; simpl; [discriminate|].
  destruct (String.eqb n name) eqn:E.
  - now intros [= ->].
  - intros H. now rewrite IH.
Qed.

Lemma setitem_setitem name s1 s2 cols :
  setitem name s2 (setitem name s1 cols) = setitem name s2 cols.
Proof.
  induction cols as [|[n s0] rest IH]; simpl.
  - now rewrite String.eqb_refl.
  - destruct (String.eqb n name) eqn:E; simpl; rewrite E; [reflexivity|].
    now rewrite IH.
Qed.

Lemma col_set_col name s df : col name (set_col name s df) = s.
Proof. unfold col, set_col; simpl. now rewrite getitem_setitem_same. Qed.

Lemma getitem_set_col name s df :
  getitem name (columns (set_col name s df)) = Some s.
Proof. unfold set_col; simpl. apply getitem_setitem_same. Qed.

Lemma set_col_set_col name s1 s2 df :
  set_col name s2 (set_col name s1 df) = set_col name s2 df.
Proof. unfold set_col; simpl. now rewrite setitem_setitem. Qed.

Lemma loc_set_na_set_col mask name s df :
  loc_set_na mask name (set_col name s df) =
  set_col name (mkSeries (dtype_of s) (set_na_where mask (values s))) df.
Proof.
  unfold loc_set_na. simpl. rewrite getitem_setitem_same.
  apply set_col_set_col.
Qed.

Lemma has_column_true name df :
  has_column name df = true -> exists s, getitem name (columns df) = Some s.
Proof.
  unfold has_column. destruct (getitem name (columns df)) as [s|]; [eauto|discriminate].
Qed.

Lemma map_col_get_same name F df :
  getitem name (columns (map_col name F df)) = option_map F (getitem name (columns df)).
Proof.
  unfold map_col. destruct (getitem name (columns df)) as [s|] eqn:E; simpl.
  - apply getitem_setitem_same.
  - now rewrite E.
Qed.

Lemma map_col_get_other name name' F df :
  String.eqb name name' = false ->
  getitem name' (columns (map_col name F df)) = getitem name' (columns df).
Proof.
  intros Hne. unfold map_col.
  destruct (getitem name (columns df)) as [s|]; simpl; [|reflexivity].
  now apply getitem_setitem_other.
Qed.

Lemma map_col_index name F df : index (map_col name F df) = index df.
Proof. unfold map_col. now destruct (getitem name (columns df)). Qed.

Lemma map_col_fixed name F df :
  (forall s, getitem name (columns df) = Some s -> F s = s) ->
  map_col name F df = df.
Proof.
  intros H. unfold map_col.
  destruct (getitem name (columns df)) as [s|] eqn:E; [|reflexivity].
  rewrite (H s eq_refl). unfold set_col. rewrite (setitem_id _ _ _ E).
  now destruct df.
Qed.

(** ** Lemmas on masks *)

Lemma combine_map_map {A B C : Type} (f : A -> B) (g : A -> C) (l : list A) :
  combine (map f l) (map g l) = map (fun x => (f x, g x)) l.
Proof. induction l; simpl; congruence. Qed.

Lemma set_na_where_map (g : cell -> bool) (l : list cell) :
  set_na_where (map g l) l = map (fun c => if g c then NA else c) l.
Proof. induction l; simpl; congruence. Qed.

Lemma set_na_where_map2 {A : Type} (g : A -> bool) (f : A -> cell) (l : list A) :
  set_na_where (map g l) (map f l) = map (fun c => if g c then NA else f c) l.
Proof. induction l; simpl; congruence. Qed.

Lemma select_map {A B : Type} (f : A -> B) (mask : list bool) (l : list A) :
  select mask (map f l) = map f (select mask l).
Proof.
  revert l. induction mask as [|b m IH]; intros [|x r]; simpl; try reflexivity.
  destruct b; simpl; now rewrite IH.
Qed.

Lemma select_In {A : Type} (mask : list bool) (l : list A) (x : A) :
  In x (select mask l) -> In x l.
Proof.
  revert l. induction mask as [|b m IH]; intros [|y r]; simpl; try tauto.
  destruct b; simpl; intros H; [destruct H|]; auto.
Qed.

Lemma select_Forall {A : Type} (P : A -> Prop) (mask : list bool) (l : list A) :
  Forall P l -> Forall P (select mask l).
Proof.
  intros H. apply Forall_forall. intros x Hx.
  rewrite Forall_forall in H. apply H. eapply select_In; eauto.
Qed.

(** ** Every rule maps one column *)

Ltac open_rule :=
  unfold map_col, has_column;
  match goal with
  | |- context [getitem ?n (columns ?df)] =>
      let E := fresh "E" in
      destruct (getitem n (columns df)) as [?s|] eqn:E; [|reflexivity]
  end;
  cbv zeta;
  repeat rewrite col_set_col;
  repeat rewrite set_col_set_col;
  unfold col;
  repeat match goal with E : getitem _ _ = Some _ |- _ => rewrite E end.

Lemma clean_visit_date_map_col df :
  clean_visit_date df = map_col "Visit Date" to_datetime df.
Proof. unfold clean_visit_date. open_rule. reflexivity. Qed.

Lemma clean_age_map_col df : clean_age df = map_col "Age" age_series df.
Proof.
  unfold clean_age. open_rule.
  rewrite loc_set_na_set_col. f_equal. unfold age_series. simpl. f_equal.
  unfold mask_or, lt_scalar, gt_scalar, to_numeric. simpl.
  rewrite !map_map, combine_map_map, map_map. simpl.
  rewrite set_na_where_map2. apply map_ext. intros c.
  unfold age_cell. destruct (to_numeric_cell c); reflexivity.
Qed.

Lemma clean_gender_map_col df : clean_gender df = map_col "Gender" gender_series df.
Proof.
  unfold clean_gender. open_rule.
  rewrite loc_set_na_set_col. f_equal. unfold gender_series.
  cbn [values dtype_of]. f_equal.
  unfold mask_not, isin, replace_values, str_lower, str_strip, astype_str.
  cbn [values dtype_of].
  rewrite !map_map. rewrite set_na_where_map2. apply map_ext. intros c.
  unfold gender_cell, on_text. cbv zeta.
  generalize (lower (strip (text_of c))). intros t.
  destruct (lookup_text t [("m", "male"); ("f", "female")]) as [v|];
    [generalize (existsb (String.eqb v) ["male"; "female"])
    |generalize (existsb (String.eqb t) ["male"; "female"])];
    intros []; reflexivity.
Qed.

Lemma clean_phone_number_map_col df :
  clean_phone_number df = map_col "Phone Number" phone_series df.
Proof.
  unfold clean_phone_number. open_rule.
  rewrite loc_set_na_set_col. f_equal. unfold phone_series.
  cbn [values dtype_of]. f_equal.
  unfold mask_not, between, str_len, str_replace_non_digits, astype_str.
  cbn [values dtype_of].
  rewrite !map_map. rewrite set_na_where_map2. apply map_ext. intros c.
  unfold phone_cell, on_text. cbv zeta.
  generalize (remove_non_digits (text_of c)). intros d.
  generalize (Qle_bool 7 (inject_Z (Z.of_nat (String.length d))) &&
              Qle_bool (inject_Z (Z.of_nat (String.length d))) 15)%bool.
  intros []; reflexivity.
Qed.

Lemma clean_email_map_col df : clean_email df = map_col "Email" email_series df.
Proof.
  unfold clean_email. open_rule.
  unfold loc_set_na. rewrite E. f_equal. unfold email_series. f_equal.
  unfold mask_not, str_contains, astype_str. cbn [values dtype_of].
  rewrite !map_map. rewrite set_na_where_map. apply map_ext. intros c.
  unfold email_cell. destruct (contains "@" (text_of c)); reflexivity.
Qed.

Lemma clean_cholesterol_map_col df :
  clean_cholesterol df = map_col "Cholesterol" cholesterol_series df.
Proof.
  unfold clean_cholesterol. open_rule.
  rewrite loc_set_na_set_col, !getitem_set_col, set_col_set_col.
  f_equal. unfold cholesterol_series, median. simpl.
  assert (H : set_na_where
                (mask_or (lt_scalar (to_numeric s) 50) (gt_scalar (to_numeric s) 400))
                (map to_numeric_cell (values s))
              = map cholesterol_cell (values s)).
  { unfold mask_or, lt_scalar, gt_scalar, to_numeric. simpl.
    rewrite !map_map, combine_map_map, map_map. simpl.
    rewrite set_na_where_map2. apply map_ext. intros c.
    unfold cholesterol_cell. destruct (to_numeric_cell c); reflexivity. }
  rewrite H. reflexivity.
Qed.

Lemma clean_blood_pressure_id df : clean_blood_pressure df = df.
Proof. unfold clean_blood_pressure. now destruct (has_column _ df). Qed.

Lemma clean_columns_map_col df :
  clean_columns df =
  map_col "Cholesterol" cholesterol_series
    (map_col "Email" email_series
       (map_col "Phone Number" phone_series
          (map_col "Gender" gender_series
             (map_col "Age" age_series
                (map_col "Visit Date" to_datetime df))))).
Proof.
  unfold clean_columns. cbv zeta.
  rewrite clean_blood_pressure_id, clean_cholesterol_map_col, clean_email_map_col,
    clean_phone_number_map_col, clean_gender_map_col, clean_age_map_col,
    clean_visit_date_map_col.
  reflexivity.
Qed.

(** ** The columns of the cleaned table *)

Lemma getitem_boolean_index name mask df :
  getitem name (columns (boolean_index mask df)) =
  option_map (select_series mask) (getitem name (columns df)).
Proof.
  unfold boolean_index. simpl.
  induction (columns df) as [|[n s0] rest IH]; simpl; [reflexivity|].
  destruct (String.eqb n name); [reflexivity|apply IH].
Qed.

Lemma getitem_drop_duplicates name df :
  getitem name (columns (drop_duplicates df)) =
  option_map (select_series (mask_not (duplicated df))) (getitem name (columns df)).
Proof.
  unfold drop_duplicates. destruct (columns df) as [|p rest] eqn:E.
  - rewrite E. reflexivity.
  - rewrite getitem_boolean_index. now rewrite E.
Qed.

Ltac other_columns := repeat rewrite map_col_get_other by reflexivity.

Lemma clean_columns_age df :
  getitem "Age" (columns (clean_columns df)) =
  option_map age_series (getitem "Age" (columns df)).
Proof.
  rewrite clean_columns_map_col. other_columns.
  rewrite map_col_get_same. other_columns. reflexivity.
Qed.

Lemma clean_columns_gender df :
  getitem "Gender" (columns (clean_columns df)) =
  option_map gender_series (getitem "Gender" (columns df)).
Proof.
  rewrite clean_columns_map_col. other_columns.
  rewrite map_col_get_same. other_columns. reflexivity.
Qed.

Lemma clean_columns_phone_number df :
  getitem "Phone Number" (columns (clean_columns df)) =
  option_map phone_series (getitem "Phone Number" (columns df)).
Proof.
  rewrite clean_columns_map_col. other_columns.
  rewrite map_col_get_same. other_columns. reflexivity.
Qed.

Lemma clean_columns_email df :
  getitem "Email" (columns (clean_columns df)) =
  option_map email_series (getitem "Email" (columns df)).
Proof.
  rewrite clean_columns_map_col. other_columns.
  rewrite map_col_get_same. other_columns. reflexivity.
Qed.

Lemma clean_columns_cholesterol df :
  getitem "Cholesterol" (columns (clean_columns df)) =
  option_map cholesterol_series (getitem "Cholesterol" (columns df)).
Proof.
  rewrite clean_columns_map_col.
  rewrite map_col_get_same. other_columns. reflexivity.
Qed.

Lemma clean_columns_index df : index (clean_columns df) = index df.
Proof. rewrite clean_columns_map_col. now rewrite !map_col_index. Qed.

Lemma nth_error_map_Some {A B : Type} (f : A -> B) (l : list A) (i : nat) (x : A) :
  nth_error l i = Some x -> nth_error (map f l) i = Some (f x).
Proof. intros H. rewrite nth_error_map, H. reflexivity. Qed.

(** ** Comparisons *)

Lemma Qltb_true p q : Qltb p q = true <-> p < q.
Proof.
  unfold Qltb. rewrite negb_true_iff. split.
  - intros H. apply Qnot_le_lt. intros Hle.
    apply Qle_bool_iff in Hle. congruence.
  - intros H. destruct (Qle_bool q p) eqn:E; [|reflexivity].
    apply Qle_bool_iff in E. exfalso. eapply Qlt_not_le; eauto.
Qed.

Lemma Qltb_false p q : Qltb p q = false <-> q <= p.
Proof.
  unfold Qltb. rewrite negb_false_iff. apply Qle_bool_iff.
Qed.

(** ** Age *)

Lemma age_cell_spec c :
  (to_numeric_cell c = NA -> age_cell c = NA) /\
  (forall q, to_numeric_cell c = Num q -> q < 0 \/ 120 < q -> age_cell c = NA) /\
  (forall q, to_numeric_cell c = Num q -> 0 <= q <= 120 -> age_cell c = Num q).
Proof.
  unfold age_cell. repeat split.
  - now intros ->.
  - intros q -> [H|H]; apply Qltb_true in H; rewrite H; [reflexivity|].
    now rewrite orb_true_r.
  - intros q -> [H1 H2]. apply Qltb_false in H1, H2. now rewrite H1, H2.
Qed.

(** C4. When the table has an Age column, the Age column of the cleaned
    table holds, for every row that [drop_duplicates] keeps, the coerced
    number when it lies in [0,120] (the number itself, unchanged), and a
    missing value when the coercion fails or the number is below 0 or
    above 120. *)
Theorem clean_data_age (df : DataFrame) (s : Series) :
  getitem "Age" (columns df) = Some s ->
  let kept := select (mask_not (duplicated df)) (values s) in
  exists s',
    getitem "Age" (columns (fst (clean_data df))) = Some s' /\
    List.length (values s') = List.length kept /\
    forall i c, nth_error kept i = Some c ->
      (to_numeric_cell c = NA -> nth_error (values s') i = Some NA) /\
      (forall q, to_numeric_cell c = Num q -> q < 0 \/ 120 < q ->
                 nth_error (values s') i = Some NA) /\
      (forall q, to_numeric_cell c = Num q -> 0 <= q <= 120 ->
                 nth_error (values s') i = Some (Num q)).
Proof.
  intros Hs kept. unfold clean_data. cbn [fst].
  rewrite clean_columns_age, getitem_drop_duplicates, Hs. cbn [option_map].
  eexists. split; [reflexivity|]. cbn [age_series select_series values].
  fold kept. split; [apply length_map|].
  intros i c Hc. rewrite (nth_error_map_Some age_cell _ _ _ Hc).
  destruct (age_cell_spec c) as (H1 & H2 & H3).
  repeat split.
  - intros H. now rewrite H1.
  - intros q Hq Hr. now rewrite (H2 q).
  - intros q Hq Hr. now rewrite (H3 q).
Qed.

(** ** Gender *)

Lemma lstrip_spec t :
  exists pre,
    chars t = pre ++ chars (lstrip t) /\
    forallb is_space pre = true /\
    match chars (lstrip t) with
    | c :: _ => is_space c = false
    | [] => True
    end.
Proof.
  induction t as [|c r IH]; cbn [lstrip chars].
  - exists []. repeat split.
  - destruct (is_space c) eqn:E.
    + destruct IH as (pre & Hpre & Hsp & Hhead).
      exists (c :: pre). cbn [app forallb]. rewrite E, Hsp, Hpre. repeat split.
      exact Hhead.
    + exists []. cbn [chars app forallb]. repeat split. exact E.
Qed.

Lemma rstrip_spec t :
  exists post,
    chars t = chars (rstrip t) ++ post /\
    forallb is_space post = true /\
    match rev (chars (rstrip t)) with
    | c :: _ => is_space c = false
    | [] => True
    end /\
    match chars (rstrip t), chars t with
    | a :: _, b :: _ => a = b
    | _, _ => True
    end.
Proof.
  induction t as [|c r IH]; cbn [rstrip chars].
  - exists []. repeat split.
  - destruct IH as (post & Hpost & Hsp & Hlast & _).
    destruct (rstrip r) as [|d r'] eqn:E.
    + cbn [chars app] in Hpost. destruct (is_space c) eqn:Ec.
      * exists (c :: post). cbn [chars app forallb rev]. rewrite Ec, Hsp, Hpost.
        repeat split.
      * exists post. cbn [chars app rev]. rewrite Hpost.
        repeat split; assumption.
    + exists post. cbn [chars app rev] in *. rewrite Hpost.
      repeat split; try assumption.
      destruct (rev (chars r') ++ [d]) as [|x l] eqn:F.
      * destruct (rev (chars r')); discriminate.
      * cbn [app]. exact Hlast.
Qed.

(** [strip] removes the white space at both ends and nothing else. *)
Lemma strip_spec t :
  exists pre post,
    chars t = pre ++ chars (strip t) ++ post /\
    forallb is_space pre = true /\
    forallb is_space post = true /\
    match chars (strip t) with
    | c :: _ => is_space c = false
    | [] => True
    end /\
    match rev (chars (strip t)) with
    | c :: _ => is_space c = false
    | [] => True
    end.
Proof.
  unfold strip.
  destruct (lstrip_spec t) as (pre & Hpre & Hsp & Hhead).
  destruct (rstrip_spec (lstrip t)) as (post & Hpost & Hsq & Hlast & Hfirst).
  exists pre, post. rewrite Hpre, Hpost at 1. repeat split; try assumption.
  destruct (chars (rstrip (lstrip t))) as [|a l]; [exact I|].
  destruct (chars (lstrip t)) as [|b l']; [destruct post; discriminate|].
  now subst a.
Qed.

Lemma lower_chars t : chars (lower t) = map lower_char (chars t).
Proof. induction t as [|c r IH]; simpl; [reflexivity|]. now rewrite IH. Qed.

Lemma gender_cell_spec c :
  let t := lower (strip (text_of c)) in
  (t = "m" \/ t = "male" -> gender_cell c = Str "male") /\
  (t = "f" \/ t = "female" -> gender_cell c = Str "female") /\
  (t <> "m" -> t <> "male" -> t <> "f" -> t <> "female" -> gender_cell c = NA).
Proof.
  intros t. unfold gender_cell. fold t. repeat split.
  - intros [-> | ->]; reflexivity.
  - intros [-> | ->]; reflexivity.
  - intros Hm Hmale Hf Hfemale. cbn [lookup_text].
    assert (Em : String.eqb "m" t = false) by (apply String.eqb_neq; congruence).
    assert (Ef : String.eqb "f" t = false) by (apply String.eqb_neq; congruence).
    rewrite Em, Ef. cbn [existsb].
    assert (E1 : String.eqb t "male" = false) by now apply String.eqb_neq.
    assert (E2 : String.eqb t "female" = false) by now apply String.eqb_neq.
    now rewrite E1, E2.
Qed.

(** C5. Trimming removes the white space at both ends of a text and
    nothing else, and lower-casing works character by character. When the
    table has a Gender column, every kept row's Gender is
    decided by its text, trimmed and lower-cased: "m" and "male" give
    "male", "f" and "female" give "female", every other text gives a
    missing value. On the column "M ", " f", "Male", "FEMALE", "unknown",
    "", "x" the result is male, female, male, female, missing, missing,
    missing. *)
Theorem clean_data_gender :
  (forall t : string,
     chars (lower t) = map lower_char (chars t) /\
     exists pre post,
       chars t = pre ++ chars (strip t) ++ post /\
       forallb is_space pre = true /\ forallb is_space post = true /\
       match chars (strip t) with
       | c :: _ => is_space c = false
       | [] => True
       end /\
       match rev (chars (strip t)) with
       | c :: _ => is_space c = false
       | [] => True
       end) /\
  (forall (df : DataFrame) (s : Series),
     getitem "Gender" (columns df) = Some s ->
     let kept := select (mask_not (duplicated df)) (values s) in
     exists s',
       getitem "Gender" (columns (fst (clean_data df))) = Some s' /\
       List.length (values s') = List.length kept /\
       forall i c, nth_error kept i = Some c ->
         let t := lower (strip (text_of c)) in
         (t = "m" \/ t = "male" -> nth_error (values s') i = Some (Str "male")) /\
         (t = "f" \/ t = "female" -> nth_error (values s') i = Some (Str "female")) /\
         (t <> "m" -> t <> "male" -> t <> "f" -> t <> "female" ->
          nth_error (values s') i = Some NA)) /\
  fst (clean_data gender_example) =
    mkFrame [0; 1; 2; 3; 4; 5; 6]%nat
      [("Gender", mkSeries Object
          [Str "male"; Str "female"; Str "male"; Str "female"; NA; NA; NA])].
Proof.
  split; [intros t; split; [apply lower_chars|apply strip_spec]|].
  split; [|vm_compute; reflexivity].
  intros df s Hs kept. unfold clean_data. cbn [fst].
  rewrite clean_columns_gender, getitem_drop_duplicates, Hs. cbn [option_map].
  eexists. split; [reflexivity|]. cbn [gender_series select_series values].
  fold kept. split; [apply length_map|].
  intros i c Hc. rewrite (nth_error_map_Some gender_cell _ _ _ Hc).
  destruct (gender_cell_spec c) as (H1 & H2 & H3). cbv zeta in H1, H2, H3.
  repeat split.
  - intros H. now rewrite H1.
  - intros H. now rewrite H2.
  - intros. now rewrite H3.
Qed.

(** ** Phone Number *)

Lemma remove_non_digits_chars t :
  chars (remove_non_digits t) = filter is_digit (chars t).
Proof.
  induction t as [|c r IH]; simpl; [reflexivity|].
  destruct (is_digit c); simpl; now rewrite IH.
Qed.

Lemma Qle_bool_nat (a b : nat) :
  Qle_bool (inject_Z (Z.of_nat a)) (inject_Z (Z.of_nat b)) = (a <=? b)%nat.
Proof.
  destruct (a <=? b)%nat eqn:E.
  - apply Nat.leb_le in E. apply Qle_bool_iff. rewrite <- Zle_Qle. lia.
  - apply Nat.leb_gt in E. destruct (Qle_bool _ _) eqn:F; [|reflexivity].
    apply Qle_bool_iff in F. rewrite <- Zle_Qle in F. lia.
Qed.

Lemma phone_cell_spec c :
  let d := remove_non_digits (text_of c) in
  ((7 <= String.length d <= 15)%nat -> phone_cell c = Str d) /\
  ((String.length d < 7 \/ 15 < String.length d)%nat -> phone_cell c = NA).
Proof.
  intros d. unfold phone_cell. fold d.
  change 7 with (inject_Z (Z.of_nat 7)). change 15 with (inject_Z (Z.of_nat 15)).
  rewrite !Qle_bool_nat. split.
  - intros [H1 H2]. apply Nat.leb_le in H1, H2. now rewrite H1, H2.
  - intros [H|H].
    + apply Nat.leb_gt in H. now rewrite H.
    + apply Nat.leb_gt in H. rewrite H. now rewrite andb_false_r.
Qed.

(** C6. When the table has a Phone Number column, every kept row's phone
    number becomes the text of its digits (the characters that are not
    digits removed, the digits in order) when there are 7 to 15 of them,
    and a missing value otherwise. "(555) 123-4567" becomes "5551234567";
    "123" and "abc" become missing. *)
Theorem clean_data_phone_number :
  (forall (df : DataFrame) (s : Series),
     getitem "Phone Number" (columns df) = Some s ->
     let kept := select (mask_not (duplicated df)) (values s) in
     exists s',
       getitem "Phone Number" (columns (fst (clean_data df))) = Some s' /\
       List.length (values s') = List.length kept /\
       forall i c, nth_error kept i = Some c ->
         let d := remove_non_digits (text_of c) in
         chars d = filter is_digit (chars (text_of c)) /\
         ((7 <= String.length d <= 15)%nat ->
          nth_error (values s') i = Some (Str d)) /\
         ((String.length d < 7 \/ 15 < String.length d)%nat ->
          nth_error (values s') i = Some NA)) /\
  fst (clean_data phone_example) =
    mkFrame [0; 1; 2]%nat
      [("Phone Number", mkSeries Object [Str "5551234567"; NA; NA])].
Proof.
  split; [|vm_compute; reflexivity].
  intros df s Hs kept. unfold clean_data. cbn [fst].
  rewrite clean_columns_phone_number, getitem_drop_duplicates, Hs. cbn [option_map].
  eexists. split; [reflexivity|]. cbn [phone_series select_series values].
  fold kept. split; [apply length_map|].
  intros i c Hc. rewrite (nth_error_map_Some phone_cell _ _ _ Hc).
  destruct (phone_cell_spec c) as (H1 & H2). cbv zeta in H1, H2.
  split; [apply remove_non_digits_chars|]. split.
  - intros H. now rewrite H1.
  - intros H. now rewrite H2.
Qed.

(** ** Email *)

Lemma prefix_empty s : String.prefix "" s = true.
Proof. now destruct s. Qed.

Lemma contains_at t : contains "@" t = true <-> In "@"%char (chars t).
Proof.
  induction t as [|c r IH]; cbn [contains chars In String.prefix].
  - split; [discriminate|intros []].
  - rewrite orb_true_iff, IH.
    destruct (Ascii.ascii_dec "@" c) as [Heq|Hne].
    + rewrite prefix_empty. split; intros _; left; congruence.
    + split; intros [H|H]; try discriminate; try congruence; now right.
Qed.

Lemma email_cell_spec c :
  (In "@"%char (chars (text_of c)) -> email_cell c = c) /\
  (~ In "@"%char (chars (text_of c)) -> email_cell c = NA) /\
  (c = NA -> email_cell c = NA).
Proof.
  unfold email_cell. repeat split.
  - intros H. apply contains_at in H. now rewrite H.
  - intros H. destruct (contains "@" (text_of c)) eqn:E; [|reflexivity].
    apply contains_at in E. contradiction.
  - intros ->. reflexivity.
Qed.

(** C7. When the table has an Email column, every kept row's Email is
    left as it is when its text contains the character "@", and becomes
    missing when it does not; a missing Email stays missing. "a@b.com" is
    kept, "not-an-email" becomes missing. *)
Theorem clean_data_email :
  (forall (df : DataFrame) (s : Series),
     getitem "Email" (columns df) = Some s ->
     let kept := select (mask_not (duplicated df)) (values s) in
     exists s',
       getitem "Email" (columns (fst (clean_data df))) = Some s' /\
       List.length (values s') = List.length kept /\
       forall i c, nth_error kept i = Some c ->
         (In "@"%char (chars (text_of c)) -> nth_error (values s') i = Some c) /\
         (~ In "@"%char (chars (text_of c)) -> nth_error (values s') i = Some NA) /\
         (c = NA -> nth_error (values s') i = Some NA)) /\
  fst (clean_data email_example) =
    mkFrame [0; 1; 2]%nat [("Email", mkSeries Object [Str "a@b.com"; NA; NA])].
Proof.
  split; [|vm_compute; reflexivity].
  intros df s Hs kept. unfold clean_data. cbn [fst].
  rewrite clean_columns_email, getitem_drop_duplicates, Hs. cbn [option_map].
  eexists. split; [reflexivity|]. cbn [email_series select_series values].
  fold kept. split; [apply length_map|].
  intros i c Hc. rewrite (nth_error_map_Some email_cell _ _ _ Hc).
  destruct (email_cell_spec c) as (H1 & H2 & H3).
  repeat split.
  - intros H. now rewrite H1.
  - intros H. now rewrite H2.
  - intros H. now rewrite H3.
Qed.

(** ** Cholesterol *)

Lemma values_fillna v s : values (fillna v s) = map (fill_cell v) (values s).
Proof.
  destruct v as [m|]; simpl; [reflexivity|].
  induction (values s) as [|c r IH]; simpl; [reflexivity|].
  rewrite <- IH. now destruct c.
Qed.

Lemma cholesterol_cell_spec c :
  (to_numeric_cell c = NA -> cholesterol_cell c = NA) /\
  (forall q, to_numeric_cell c = Num q -> q < 50 \/ 400 < q -> cholesterol_cell c = NA) /\
  (forall q, to_numeric_cell c = Num q -> 50 <= q <= 400 -> cholesterol_cell c = Num q).
Proof.
  unfold cholesterol_cell. repeat split.
  - now intros ->.
  - intros q -> [H|H]; apply Qltb_true in H; rewrite H; [reflexivity|].
    now rewrite orb_true_r.
  - intros q -> [H1 H2]. apply Qltb_false in H1, H2. now rewrite H1, H2.
Qed.

(** ** Coercion *)

Lemma to_numeric_cell_coerced c :
  to_numeric_cell c = match coerced c with Some q => Num q | None => NA end.
Proof. destruct c; reflexivity. Qed.


Lemma in_range_bool q :
  (Qle_bool 50 q && Qle_bool q 400 = negb (Qltb q 50 || Qltb 400 q))%bool.
Proof.
  unfold Qltb. destruct (Qle_bool 50 q), (Qle_bool q 400); reflexivity.
Qed.

Lemma numbers_cholesterol_cell l :
  numbers (map cholesterol_cell l) = valid_cholesterol l.
Proof.
  unfold valid_cholesterol.
  induction l as [|c r IH]; [reflexivity|].
  cbn [map coerced_numbers flat_map]. fold (coerced_numbers r).
  rewrite filter_app, <- IH. unfold cholesterol_cell at 1.
  rewrite to_numeric_cell_coerced.
  destruct (coerced c) as [q|]; [|reflexivity].
  cbn [filter]. rewrite in_range_bool.
  destruct (Qltb q 50 || Qltb 400 q)%bool; reflexivity.
Qed.

(** C1. When the table has a Cholesterol column, every kept row's value is
    coerced to a number: a number is itself, a text is the number pandas
    reads from it, and a missing cell or a text that is no number fails. A
    coerced number in [50,400] is valid and stays; a failed coercion or a
    number outside [50,400] is nulled and then filled with the median of
    the valid values of the column (it stays missing when no value is
    valid). On 100, 200, 300, 9999, missing the result is
    100, 200, 300, 200, 200. *)
Theorem clean_data_cholesterol :
  (forall (df : DataFrame) (s : Series),
     getitem "Cholesterol" (columns df) = Some s ->
     let kept := select (mask_not (duplicated df)) (values s) in
     let valid := valid_cholesterol kept in
     let fill := match median_of valid with Some m => Num m | None => NA end in
     exists s',
       getitem "Cholesterol" (columns (fst (clean_data df))) = Some s' /\
       List.length (values s') = List.length kept /\
       forall i c, nth_error kept i = Some c ->
         (forall q, coerced c = Some q -> 50 <= q <= 400 ->
            nth_error (values s') i = Some (Num q)) /\
         (coerced c = None -> nth_error (values s') i = Some fill) /\
         (forall q, coerced c = Some q -> q < 50 \/ 400 < q ->
            nth_error (values s') i = Some fill)) /\
  fst (clean_data cholesterol_example) =
    mkFrame [0; 1; 2; 3; 4]%nat
      [("Cholesterol", mkSeries Numeric [Num 100; Num 200; Num 300; Num 200; Num 200])].
Proof.
  split; [|vm_compute; reflexivity].
  intros df s Hs kept valid fill. unfold clean_data. cbn [fst].
  rewrite clean_columns_cholesterol, getitem_drop_duplicates, Hs. cbn [option_map].
  eexists. split; [reflexivity|]. unfold cholesterol_series.
  rewrite values_fillna. cbn [select_series values]. fold kept.
  rewrite numbers_cholesterol_cell. fold valid.
  split; [now rewrite !length_map|].
  intros i c Hc. rewrite map_map.
  rewrite (nth_error_map_Some (fun x => fill_cell (median_of valid) (cholesterol_cell x))
             _ _ _ Hc).
  destruct (cholesterol_cell_spec c) as (H1 & H2 & H3).
  rewrite to_numeric_cell_coerced in H1, H2, H3.
  split; [|split].
  - intros q Hq Hr. rewrite Hq in H3. now rewrite (H3 q eq_refl Hr).
  - intros Hq. rewrite Hq in H1. now rewrite (H1 eq_refl).
  - intros q Hq Hr. rewrite Hq in H2. now rewrite (H2 q eq_refl Hr).
Qed.

(** ** detect_anomalies: lists of labels and positions *)

Lemma positions_from_In start l idx :
  In l idx -> positions_from start l idx <> [].
Proof.
  revert start. induction idx as [|x r IH]; simpl; [tauto|].
  intros start [->|H].
  - rewrite Nat.eqb_refl. discriminate.
  - destruct (Nat.eqb x l); [discriminate|]. now apply IH.
Qed.

Lemma loc_positions_total labels idx :
  Forall (fun l => In l idx) labels ->
  exists ps, loc_positions labels idx = Returned ps.
Proof.
  induction 1 as [|l r Hl Hr IH]; simpl; [eauto|].
  destruct IH as [qs ->].
  pose proof (positions_from_In 0 l idx Hl) as Hne. unfold positions.
  destruct (positions_from 0 l idx); [congruence|eauto].
Qed.

Lemma dropna_fst_In idx cells l :
  In l (map fst (dropna idx cells)) -> In l idx.
Proof.
  revert cells. induction idx as [|i r IH]; intros [|c cells]; simpl; try tauto.
  destruct c; simpl; intros H; try (right; eapply IH; eassumption).
  destruct H as [->|H]; [now left|right; eapply IH; eassumption].
Qed.

Lemma dropna_snd idx cells :
  List.length idx = List.length cells ->
  map snd (dropna idx cells) = numbers cells.
Proof.
  revert cells. induction idx as [|i r IH]; intros [|c cells]; simpl;
    try reflexivity; try discriminate.
  intros [= H]. destruct c; simpl; now rewrite IH.
Qed.

Lemma select_all_false {A : Type} (l : list A) (m : list bool) :
  Forall (fun b => b = false) m -> select m l = [].
Proof.
  intros H. revert l. induction H as [|b m Hb Hm IH]; intros [|x r]; simpl;
    try reflexivity.
  rewrite Hb. apply IH.
Qed.

Lemma detect_anomalies_present w column s :
  getitem column (columns (table w)) = Some s ->
  detect_anomalies column w =
  match loc (anomaly_labels (table w) s) (table w) with
  | Returned anomalies =>
      (mkWorld (table w) (stdout w ++ report column anomalies), Returned anomalies)
  | Raised e => (w, Raised e)
  end.
Proof.
  intros Hs. unfold detect_anomalies, bind, get_table, has_column, lift, column_of.
  rewrite Hs. cbn [negb]. fold (anomaly_labels (table w) s).
  destruct (loc (anomaly_labels (table w) s) (table w)) as [a|e]; [|reflexivity].
  unfold print, ret. cbn [table stdout]. rewrite <- app_assoc. reflexivity.
Qed.

(** C8. When the table has no column of the given name, the call returns
    (it does not raise) the empty table [pd.DataFrame()], prints the one
    diagnostic line, and leaves the caller's table as it was. *)
Theorem detect_anomalies_absent_column (w : world) (column : string) :
  getitem column (columns (table w)) = None ->
  detect_anomalies column w =
    (mkWorld (table w)
       (stdout w ++
        [[OText "No column '"; OText column; OText "' for anomaly detection."]]),
     Returned empty_frame).
Proof.
  intros H. unfold detect_anomalies, bind, get_table, has_column.
  rewrite H. reflexivity.
Qed.

(** ** Sums, means and variances over [Q] *)

Lemma qlen_cons x l : qlen (x :: l) == 1 + qlen l.
Proof.
  unfold qlen. cbn [List.length]. rewrite Nat2Z.inj_succ.
  unfold Z.succ. rewrite inject_Z_plus. ring.
Qed.

Lemma qlen_nonneg l : 0 <= qlen l.
Proof.
  unfold qlen. change 0 with (inject_Z 0). rewrite <- Zle_Qle. lia.
Qed.

Lemma qlen_pos x l : 0 < qlen (x :: l).
Proof. rewrite qlen_cons. pose proof (qlen_nonneg l). lra. Qed.

Lemma qsum_zero l : Forall (fun x => x == 0) l -> qsum l == 0.
Proof.
  induction 1 as [|x r Hx Hr IH]; simpl; [reflexivity|].
  rewrite Hx, IH. ring.
Qed.

Lemma qsum_const a l : Forall (fun x => x == a) l -> qsum l == qlen l * a.
Proof.
  induction 1 as [|x r Hx Hr IH].
  - unfold qlen. simpl. ring.
  - rewrite qlen_cons. simpl. rewrite Hx, IH. ring.
Qed.

Lemma zscore_constant l :
  (forall x y, In x l -> In y l -> x == y) ->
  Forall (fun z => z_var z == 0) (zscore l).
Proof.
  intros Hall. destruct l as [|a r]; [constructor|].
  unfold zscore, mean_of. set (l := a :: r) in *.
  assert (Hc : Forall (fun x => x == a) l).
  { apply Forall_forall. intros x Hx. apply Hall; [assumption|now left]. }
  assert (Hm : qsum l / qlen l == a).
  { rewrite (qsum_const a l Hc). field.
    pose proof (qlen_pos a r). fold l in H. lra. }
  assert (Hv : variance_about (qsum l / qlen l) l == 0).
  { unfold variance_about. rewrite qsum_zero.
    - field. pose proof (qlen_pos a r). fold l in H. lra.
    - apply Forall_forall. intros y Hy. apply in_map_iff in Hy.
      destruct Hy as (x & <- & Hx). rewrite Forall_forall in Hc.
      rewrite (Hc x Hx), Hm. ring. }
  apply Forall_forall. intros z Hz. apply in_map_iff in Hz.
  destruct Hz as (x & <- & Hx). exact Hv.
Qed.

Lemma z_gt_nan z k : z_var z == 0 -> z_gt (z_abs z) k = false.
Proof.
  intros H. unfold z_gt, z_abs. cbn [z_var z_num].
  assert (E : Qltb 0 (z_var z) = false) by (apply Qltb_false; lra).
  now rewrite E.
Qed.

Lemma take_rows_nil df :
  take_rows [] df =
  mkFrame [] (map (fun c => (fst c, mkSeries (dtype_of (snd c)) [])) (columns df)).
Proof. reflexivity. Qed.

(** C10. When the non-missing numbers of the column all coincide (also
    when there is one or none), every standard score is not-a-number (its
    variance is zero) and compares false with 3; the call returns (it does
    not raise) a table with no rows, and leaves the caller's table as it
    was. *)
Theorem detect_anomalies_zero_variance (w : world) (column : string) (s : Series) :
  getitem column (columns (table w)) = Some s ->
  List.length (index (table w)) = List.length (values s) ->
  let nums := numbers (values (to_numeric s)) in
  (forall x y, In x nums -> In y nums -> x == y) ->
  Forall (fun z => z_var z == 0 /\ z_gt (z_abs z) 3 = false) (zscore nums) /\
  exists anomalies,
    detect_anomalies column w =
      (mkWorld (table w) (stdout w ++ report column anomalies), Returned anomalies) /\
    index anomalies = [] /\
    Forall (fun c => values (snd c) = []) (columns anomalies).
Proof.
  intros Hs Hlen nums Hall.
  pose proof (zscore_constant nums Hall) as Hz.
  split.
  { apply Forall_forall. intros z Hin. rewrite Forall_forall in Hz.
    split; [now apply Hz|apply z_gt_nan; now apply Hz]. }
  rewrite (detect_anomalies_present w column s Hs).
  assert (Hl : anomaly_labels (table w) s = []).
  { unfold anomaly_labels. cbv zeta. rewrite dropna_snd.
    2:{ unfold to_numeric. cbn [values]. now rewrite length_map. }
    fold nums. apply select_all_false.
    rewrite map_map. apply Forall_forall. intros b Hb.
    apply in_map_iff in Hb. destruct Hb as (z & <- & Hin).
    apply z_gt_nan. rewrite Forall_forall in Hz. now apply Hz. }
  rewrite Hl. unfold loc. cbn [loc_positions]. rewrite take_rows_nil.
  eexists. split; [reflexivity|]. cbn [index columns]. split; [reflexivity|].
  apply Forall_forall. intros c Hc. apply in_map_iff in Hc.
  destruct Hc as (c0 & <- & _). reflexivity.
Qed.

(** ** detect_anomalies: selecting rows by label *)

Lemma positions_from_absent start l idx :
  ~ In l idx -> positions_from start l idx = [].
Proof.
  revert start. induction idx as [|x r IH]; simpl; [reflexivity|].
  intros start H. destruct (Nat.eqb_spec x l) as [->|_]; [tauto|].
  apply IH. tauto.
Qed.

Lemma positions_from_unique start l idx p :
  NoDup idx -> nth_error idx p = Some l ->
  positions_from start l idx = [(start + p)%nat].
Proof.
  intros Hnd. revert start p. induction Hnd as [|x r Hx Hr IH]; intros start p.
  - destruct p; discriminate.
  - destruct p as [|p]; simpl.
    + intros [= ->]. rewrite Nat.eqb_refl.
      rewrite (positions_from_absent _ _ _ Hx). now rewrite Nat.add_0_r.
    + intros Hp. destruct (Nat.eqb_spec x l) as [->|_].
      * exfalso. apply Hx. eapply nth_error_In; eauto.
      * rewrite (IH (S start) p Hp). f_equal. lia.
Qed.

Lemma loc_positions_exact idx labels ps :
  NoDup idx ->
  Forall2 (fun l p => nth_error idx p = Some l) labels ps ->
  loc_positions labels idx = Returned ps.
Proof.
  intros Hnd. induction 1 as [|l p ls qs Hlp Hrest IH]; simpl; [reflexivity|].
  unfold positions. rewrite (positions_from_unique 0 l idx p Hnd Hlp), IH.
  reflexivity.
Qed.

Lemma select_indices_where {A : Type} (pre suf : list A) (mask : list bool) :
  (List.length mask <= List.length suf)%nat ->
  Forall2 (fun l p => nth_error (pre ++ suf) p = Some l)
          (select mask suf) (indices_where (List.length pre) mask).
Proof.
  revert pre suf. induction mask as [|b m IH]; intros pre suf Hlen.
  - constructor.
  - destruct suf as [|x r]; [simpl in Hlen; lia|].
    simpl in Hlen. cbn [select indices_where].
    assert (Hr : Forall2 (fun l p => nth_error (pre ++ x :: r) p = Some l)
                   (select m r) (indices_where (S (List.length pre)) m)).
    { replace (pre ++ x :: r) with ((pre ++ [x]) ++ r)
        by (rewrite <- app_assoc; reflexivity).
      replace (S (List.length pre)) with (List.length (pre ++ [x]))
        by (rewrite length_app; simpl; lia).
      apply IH. lia. }
    destruct b; [|exact Hr].
    constructor; [|exact Hr].
    rewrite nth_error_app2 by lia. now rewrite Nat.sub_diag.
Qed.

Lemma take_indices_where {A : Type} (d : A) (pre suf : list A) (mask : list bool) :
  (List.length mask <= List.length suf)%nat ->
  map (fun p => nth p (pre ++ suf) d) (indices_where (List.length pre) mask) =
  select mask suf.
Proof.
  intros Hlen.
  pose proof (select_indices_where pre suf mask Hlen) as H.
  induction H as [|l p ls ps Hlp Hrest IH]; simpl; [reflexivity|].
  rewrite IH. f_equal. now apply nth_error_nth.
Qed.

Lemma take_rows_boolean_index mask df :
  List.length mask = List.length (index df) ->
  Forall (fun c => List.length (values (snd c)) = List.length (index df)) (columns df) ->
  take_rows (indices_where 0 mask) df = boolean_index mask df.
Proof.
  intros Hm Hc. unfold take_rows, boolean_index. f_equal.
  - apply (take_indices_where 0%nat [] (index df) mask). lia.
  - apply map_ext_in. intros c Hin. rewrite Forall_forall in Hc.
    specialize (Hc c Hin). f_equal. f_equal.
    apply (take_indices_where NA [] (values (snd c)) mask). lia.
Qed.

Lemma select_dropna (g : Q -> bool) idx cells :
  List.length idx = List.length cells ->
  select (map g (numbers cells)) (map fst (dropna idx cells)) =
  select (map (fun c => match c with Num x => g x | _ => false end) cells) idx.
Proof.
  revert cells. induction idx as [|i r IH]; intros [|c cells]; simpl;
    try reflexivity; try discriminate.
  intros [= H]. destruct c; simpl; rewrite IH by assumption; reflexivity.
Qed.

Lemma anomaly_labels_select df s :
  List.length (index df) = List.length (values s) ->
  anomaly_labels df s =
  select (map (is_anomaly (numbers (values (to_numeric s)))) (values (to_numeric s)))
         (index df).
Proof.
  intros Hlen. unfold anomaly_labels. cbv zeta.
  assert (Hl : List.length (index df) = List.length (values (to_numeric s))).
  { unfold to_numeric. cbn [values]. now rewrite length_map. }
  rewrite (dropna_snd _ _ Hl).
  set (cells := values (to_numeric s)) in *.
  unfold zscore. destruct (mean_of (numbers cells)) as [m|] eqn:Em.
  - rewrite !map_map.
    rewrite (select_dropna
               (fun x => z_gt (z_abs (mkZ (x - m) (variance_about m (numbers cells)))) 3)
               _ _ Hl).
    f_equal. apply map_ext. intros c. unfold is_anomaly. rewrite Em. reflexivity.
  - assert (Hn : numbers cells = [])
      by (unfold mean_of in Em; destruct (numbers cells); congruence).
    cbn [map].
    replace (select [] (map fst (dropna (index df) cells))) with (@nil nat)
      by (now destruct (map fst (dropna (index df) cells))).
    symmetry. apply select_all_false. apply Forall_forall. intros b Hb.
    apply in_map_iff in Hb. destruct Hb as (c & <- & _).
    unfold is_anomaly. rewrite Em. now destruct c.
Qed.

Lemma detect_anomalies_rows w column s :
  well_formed (table w) ->
  getitem column (columns (table w)) = Some s ->
  List.length (values s) = List.length (index (table w)) ->
  let cells := values (to_numeric s) in
  let anomalies := boolean_index (map (is_anomaly (numbers cells)) cells) (table w) in
  detect_anomalies column w =
    (mkWorld (table w) (stdout w ++ report column anomalies), Returned anomalies).
Proof.
  intros [Hnd Hcols] Hs Hlen cells anomalies.
  rewrite (detect_anomalies_present w column s Hs).
  rewrite anomaly_labels_select by congruence. fold cells.
  set (mask := map (is_anomaly (numbers cells)) cells).
  assert (Hmask : List.length mask = List.length (index (table w))).
  { unfold mask, cells, to_numeric. cbn [values]. now rewrite !length_map. }
  unfold loc.
  rewrite (loc_positions_exact (index (table w)) _ (indices_where 0 mask) Hnd).
  - rewrite take_rows_boolean_index by assumption. reflexivity.
  - apply (select_indices_where [] (index (table w)) mask). lia.
Qed.

(** ** The score test, over the rationals and over the reals *)

Lemma Qsq_nonneg (q : Q) : 0 <= q * q.
Proof. nra. Qed.

Lemma Qabs_sq d : Qabs d * Qabs d == d * d.
Proof. apply Qabs_case; intros; ring. Qed.

Lemma Qabs_pos_of_sq d v : 0 < v -> 9 * v < d * d -> 0 < Qabs d.
Proof.
  intros Hv H. apply Qabs_case; intros Hd.
  - destruct (Qlt_le_dec 0 d) as [|Hle]; [assumption|].
    assert (E : d == 0) by lra. rewrite E in H. lra.
  - destruct (Qlt_le_dec d 0) as [|Hle]; [lra|].
    assert (E : d == 0) by lra. rewrite E in H. lra.
Qed.

Lemma z_gt_abs_iff d v :
  z_gt (z_abs (mkZ d v)) 3 = true <-> 0 < v /\ 9 * v < d * d.
Proof.
  unfold z_gt, z_abs. cbn [z_num z_var].
  rewrite !andb_true_iff, !Qltb_true, Qabs_sq. split.
  - intros [[Hv _] H]. split; [assumption|lra].
  - intros [Hv H]. repeat split; [assumption| |lra].
    now apply (Qabs_pos_of_sq d v).
Qed.


(** ** Moments of a list with one more value *)



Lemma qsum_app l1 l2 : qsum (l1 ++ l2) == qsum l1 + qsum l2.
Proof.
  induction l1 as [|y r IH]; simpl; [ring|]. rewrite IH. ring.
Qed.

Lemma qsum_insert pre x post : qsum (pre ++ x :: post) == qsum (pre ++ post) + x.
Proof. rewrite !qsum_app. simpl. ring. Qed.


Lemma qlen_insert pre (x : Q) post : qlen (pre ++ x :: post) == qlen (pre ++ post) + 1.
Proof.
  unfold qlen. rewrite !length_app. cbn [List.length].
  rewrite Nat.add_succ_r, Nat2Z.inj_succ. unfold Z.succ.
  rewrite inject_Z_plus. reflexivity.
Qed.

Lemma mean_of_insert pre x post :
  mean_of (pre ++ x :: post) =
  Some (qsum (pre ++ x :: post) / qlen (pre ++ x :: post)).
Proof. unfold mean_of. now destruct pre. Qed.






Lemma to_numeric_map_Num l : map to_numeric_cell (map Num l) = map Num l.
Proof. rewrite map_map. reflexivity. Qed.

Lemma getitem_In name cols s :
  getitem name cols = Some s -> exists n, In (n, s) cols.
Proof.
  induction cols as [|[n s0] rest IH]; simpl; [discriminate|].
  destruct (String.eqb n name).
  - intros [= ->]. eauto.
  - intros H. destruct (IH H) as [n' Hn']. eauto.
Qed.

Lemma well_formed_length df name s :
  well_formed df -> getitem name (columns df) = Some s ->
  List.length (values s) = List.length (index df).
Proof.
  intros [_ Hc] Hs. destruct (getitem_In _ _ _ Hs) as [n Hn].
  rewrite Forall_forall in Hc. exact (Hc _ Hn).
Qed.

(** ** The rows that detect_anomalies returns *)





(** ** Order statistics *)

Lemma insert_sorted_perm x l : Permutation (x :: l) (insert_sorted x l).
Proof.
  induction l as [|y r IH]; simpl; [reflexivity|].
  destruct (Qle_bool x y); [reflexivity|].
  rewrite perm_swap. now constructor.
Qed.

Lemma sort_perm l : Permutation l (sort l).
Proof.
  induction l as [|x r IH]; simpl; [constructor|].
  rewrite <- insert_sorted_perm. now constructor.
Qed.

Lemma sort_length l : List.length (sort l) = List.length l.
Proof. symmetry. apply Permutation_length, sort_perm. Qed.

Lemma insert_sorted_sorted x l :
  StronglySorted Qle l -> StronglySorted Qle (insert_sorted x l).
Proof.
  induction 1 as [|y r Hr IH Hy]; simpl.
  - repeat constructor.
  - destruct (Qle_bool x y) eqn:E.
    + apply Qle_bool_iff in E. constructor; [now constructor|].
      constructor; [assumption|].
      eapply Forall_impl; [|exact Hy]. intros z Hz. cbv beta in Hz. lra.
    + assert (Hyx : y <= x).
      { destruct (Qlt_le_dec x y) as [Hlt|Hle]; [|assumption].
        apply Qlt_le_weak, Qle_bool_iff in Hlt. congruence. }
      constructor; [assumption|].
      eapply Permutation_Forall; [apply insert_sorted_perm|].
      now constructor.
Qed.

Lemma sort_sorted l : StronglySorted Qle (sort l).
Proof.
  induction l as [|x r IH]; simpl; [constructor|].
  now apply insert_sorted_sorted.
Qed.

Lemma sorted_last_max l a :
  StronglySorted Qle (l ++ [a]) -> Forall (fun x => x <= a) l.
Proof.
  induction l as [|y r IH]; simpl; [constructor|].
  intros H. inversion H as [|? ? Hr Hy]; subst.
  constructor; [|now apply IH].
  rewrite Forall_forall in Hy. apply Hy. apply in_or_app. right. now left.
Qed.

Lemma min_of_spec l :
  l <> [] ->
  exists lo, min_of l = Some lo /\ lo = nth 0 (sort l) 0 /\
             In lo l /\ forall x, In x l -> lo <= x.
Proof.
  intros Hne. unfold min_of.
  pose proof (sort_perm l) as Hp. pose proof (sort_sorted l) as Hs.
  destruct (sort l) as [|lo t] eqn:E.
  - apply Permutation_sym, Permutation_nil in Hp. contradiction.
  - exists lo. repeat split.
    + eapply Permutation_in; [apply Permutation_sym; exact Hp|now left].
    + intros x Hx. pose proof (Permutation_in _ Hp Hx) as Hin.
      inversion Hs as [|? ? _ Hall]; subst.
      destruct Hin as [->|Hin]; [lra|].
      rewrite Forall_forall in Hall. now apply Hall.
Qed.

Lemma max_of_spec l :
  l <> [] ->
  exists hi, max_of l = Some hi /\
             hi = nth (List.length l - 1) (sort l) 0 /\
             In hi l /\ forall x, In x l -> x <= hi.
Proof.
  intros Hne. unfold max_of.
  pose proof (sort_perm l) as Hp. pose proof (sort_sorted l) as Hs.
  pose proof (sort_length l) as Hlen.
  destruct (rev (sort l)) as [|hi t] eqn:E.
  - apply (f_equal (@rev Q)) in E. rewrite rev_involutive in E. simpl in E.
    rewrite E in Hp. apply Permutation_sym, Permutation_nil in Hp. contradiction.
  - apply (f_equal (@rev Q)) in E. rewrite rev_involutive in E. simpl in E.
    rewrite E in Hp, Hs, Hlen |- *.
    exists hi. repeat split.
    + rewrite <- Hlen, length_app. cbn [List.length].
      rewrite app_nth2 by lia.
      replace (List.length (rev t) + 1 - 1 - List.length (rev t))%nat with 0%nat by lia.
      reflexivity.
    + eapply Permutation_in; [apply Permutation_sym; exact Hp|].
      apply in_or_app. right. now left.
    + intros x Hx. pose proof (Permutation_in _ Hp Hx) as Hin.
      apply in_app_or in Hin. destruct Hin as [Hin|[->|[]]]; [|lra].
      pose proof (sorted_last_max _ _ Hs) as Hall.
      rewrite Forall_forall in Hall. now apply Hall.
Qed.

Lemma mean_of_spec l :
  l <> [] -> exists m, mean_of l = Some m /\ m * qlen l == qsum l.
Proof.
  destruct l as [|x r]; [congruence|]. intros _.
  eexists. split; [reflexivity|]. field.
  pose proof (qlen_pos x r). lra.
Qed.

Lemma median_of_spec l :
  l <> [] ->
  let n := List.length l in
  exists md, median_of l = Some md /\
    (Nat.even n = false -> md = nth (n / 2) (sort l) 0) /\
    (Nat.even n = true ->
     md = (nth (n / 2 - 1) (sort l) 0 + nth (n / 2) (sort l) 0) / 2).
Proof.
  destruct l as [|x r]; [congruence|]. intros _ n.
  unfold median_of. rewrite sort_length. fold n.
  destruct (Nat.even n); eexists; (split; [reflexivity|]);
    split; intros; congruence.
Qed.

Lemma quantile_of_spec p l :
  l <> [] -> 0 <= p ->
  let n := List.length l in
  exists (k : nat) (f : Q),
    p * inject_Z (Z.of_nat (n - 1)) == inject_Z (Z.of_nat k) + f /\
    0 <= f /\ f < 1 /\
    quantile_of p l =
      Some (nth k (sort l) 0 +
            f * (nth (Nat.min (k + 1) (n - 1)) (sort l) 0 - nth k (sort l) 0)).
Proof.
  destruct l as [|x r]; [congruence|]. intros _ Hp n.
  unfold quantile_of. rewrite sort_length. fold n.
  set (pos := p * inject_Z (Z.of_nat (n - 1))).
  assert (Hpos : 0 <= pos).
  { unfold pos. apply Qmult_le_0_compat; [assumption|].
    change 0 with (inject_Z 0). rewrite <- Zle_Qle. lia. }
  assert (Hfl : (0 <= Qfloor pos)%Z).
  { change 0%Z with (Qfloor 0). now apply Qfloor_resp_le. }
  exists (Z.to_nat (Qfloor pos)), (pos - inject_Z (Z.of_nat (Z.to_nat (Qfloor pos)))).
  rewrite Z2Nat.id by assumption.
  pose proof (Qfloor_le pos). pose proof (Qlt_floor pos) as Hlt.
  rewrite inject_Z_plus in Hlt. change (inject_Z 1) with 1 in Hlt.
  repeat split; try lra.
Qed.

(** ** summary_statistics *)

Lemma numbers_In q l : In q (numbers l) <-> In (Num q) l.
Proof.
  induction l as [|c r IH]; [split; intros []|].
  destruct c as [|p|t|d]; cbn [numbers In]; split.
  - intros H. right. now apply IH.
  - intros [H|H]; [discriminate H|now apply IH].
  - intros [H|H]; [left; now subst|right; now apply IH].
  - intros [H|H]; [left; now injection H|right; now apply IH].
  - intros H. right. now apply IH.
  - intros [H|H]; [discriminate H|now apply IH].
  - intros H. right. now apply IH.
  - intros [H|H]; [discriminate H|now apply IH].
Qed.

Lemma select_dtypes_number_In df c :
  In c (select_dtypes_number df) <->
  exists s, In (c, s) (columns df) /\ dtype_of s = Numeric.
Proof.
  unfold select_dtypes_number. rewrite in_map_iff. split.
  - intros ([n s] & <- & H). apply filter_In in H. destruct H as [Hin Hd].
    exists s. split; [assumption|]. cbn [snd] in Hd.
    now destruct (dtype_of s).
  - intros (s & Hin & Hd). exists (c, s). split; [reflexivity|].
    apply filter_In. split; [assumption|]. cbn [snd]. now rewrite Hd.
Qed.

(** ** What summary_statistics prints *)

Lemma sort_sorted_of l : sorted_of l (sort l).
Proof. split; [apply sort_perm|apply sort_sorted]. Qed.

Lemma mean_of_is_mean l : is_mean l (mean_of l).
Proof.
  destruct l as [|a r]; [reflexivity|].
  destruct (mean_of_spec (a :: r)) as (m & -> & Hm); [discriminate|].
  split; [discriminate|exact Hm].
Qed.

Lemma median_of_is_median l : is_median l (median_of l).
Proof.
  destruct l as [|a r]; [reflexivity|].
  destruct (median_of_spec (a :: r)) as (md & -> & Hodd & Heven); [discriminate|].
  split; [discriminate|]. exists (sort (a :: r)).
  split; [apply sort_sorted_of|]. cbv zeta. rewrite sort_length. now split.
Qed.

Lemma min_of_is_min l : is_min l (min_of l).
Proof.
  destruct l as [|a r]; [reflexivity|].
  destruct (min_of_spec (a :: r)) as (lo & -> & _ & Hin & Hle); [discriminate|].
  now split.
Qed.

Lemma max_of_is_max l : is_max l (max_of l).
Proof.
  destruct l as [|a r]; [reflexivity|].
  destruct (max_of_spec (a :: r)) as (hi & -> & _ & Hin & Hle); [discriminate|].
  now split.
Qed.

Lemma quantile_of_is_quantile p l : 0 <= p -> is_quantile p l (quantile_of p l).
Proof.
  intros Hp. destruct l as [|a r]; [reflexivity|].
  destruct (quantile_of_spec p (a :: r)) as (k & f & He & H0 & H1 & ->);
    [discriminate|assumption|].
  split; [discriminate|]. exists (sort (a :: r)), k, f.
  split; [apply sort_sorted_of|]. cbv zeta. rewrite sort_length.
  repeat split; assumption.
Qed.

Lemma Forall2_map_r {A B : Type} (P : A -> B -> Prop) (f : A -> B) (l : list A) :
  (forall a, In a l -> P a (f a)) -> Forall2 P l (map f l).
Proof.
  induction l as [|a r IH]; intros H; simpl; constructor.
  - apply H. now left.
  - apply IH. intros b Hb. apply H. now right.
Qed.

(** C9. [summary_statistics] prints one block of six lines for every
    column of numeric dtype, in column order, and nothing else: the
    heading with the column's name, the mean, the median, the minimum and
    the maximum, and the quartiles at 0.25, 0.5 and 0.75. The statistics
    are taken over the numbers of the column, the missing values left
    out: the mean is their sum over their count, the median the middle
    order statistic (or the mean of the two middle ones), minimum and
    maximum the least and the greatest number, and each quantile [p]
    interpolates linearly between the two order statistics around the
    position [p * (n - 1)]; without any number each of them is
    not-a-number. On 1, 2, 3, 4: mean 2.5, median 2.5, minimum 1,
    maximum 4, quartiles 1.75, 2.5 and 3.25. *)
Theorem summary_statistics_values :
  (forall df : DataFrame,
     exists blocks,
       summary_statistics df = List.concat blocks /\
       Forall2
         (fun c block =>
            let nums := numbers (values (col c df)) in
            exists m md lo hi q1 q2 q3,
              block =
                [ [OText newline; OText "Summary Statistics for '"; OText c; OText "':"];
                  [OText "Mean: "; ONum m];
                  [OText "Median: "; ONum md];
                  [OText "Min: "; ONum lo; OText ", Max: "; ONum hi];
                  [OText "Quartiles:"];
                  [OQuantiles [(1 # 4, q1); (1 # 2, q2); (3 # 4, q3)]] ] /\
              is_mean nums m /\ is_median nums md /\
              is_min nums lo /\ is_max nums hi /\
              is_quantile (1 # 4) nums q1 /\ is_quantile (1 # 2) nums q2 /\
              is_quantile (3 # 4) nums q3)
         (select_dtypes_number df) blocks) /\
  (forall (df : DataFrame) (c : string),
     In c (select_dtypes_number df) <->
     exists s, In (c, s) (columns df) /\ dtype_of s = Numeric) /\
  (forall (s : Series) (q : Q), In q (numbers (values s)) <-> In (Num q) (values s)) /\
  (exists m md lo hi q1 q2 q3,
     summary_statistics summary_example =
       [ [OText newline; OText "Summary Statistics for '"; OText "x"; OText "':"];
         [OText "Mean: "; ONum (Some m)];
         [OText "Median: "; ONum (Some md)];
         [OText "Min: "; ONum (Some lo); OText ", Max: "; ONum (Some hi)];
         [OText "Quartiles:"];
         [OQuantiles [(1 # 4, Some q1); (1 # 2, Some q2); (3 # 4, Some q3)]] ] /\
     m == 5 # 2 /\ md == 5 # 2 /\ lo == 1 /\ hi == 4 /\
     q1 == 7 # 4 /\ q2 == 5 # 2 /\ q3 == 13 # 4).
Proof.
  split; [|split; [|split]].
  - intros df. exists (map (summary_block df) (select_dtypes_number df)).
    split; [apply flat_map_concat_map|].
    apply Forall2_map_r. intros c _. cbv zeta.
    exists (mean (col c df)), (median (col c df)), (smin (col c df)),
      (smax (col c df)), (quantile_of (1 # 4) (numbers (values (col c df)))),
      (quantile_of (1 # 2) (numbers (values (col c df)))),
      (quantile_of (3 # 4) (numbers (values (col c df)))).
    split; [reflexivity|].
    split; [apply mean_of_is_mean|]. split; [apply median_of_is_median|].
    split; [apply min_of_is_min|]. split; [apply max_of_is_max|].
    split; [|split]; apply quantile_of_is_quantile; lra.
  - intros df c. apply select_dtypes_number_In.
  - intros s q. apply numbers_In.
  - do 7 eexists. split; [reflexivity|].
    repeat split; vm_compute; reflexivity.
Qed.

(** ** Cleaning a cleaned table *)

Lemma map_fixed (f : cell -> cell) l :
  Forall (fun c => f c = c) l -> map f l = l.
Proof. induction 1 as [|c r Hc Hr IH]; simpl; congruence. Qed.

Lemma idem_Forall (f : cell -> cell) l :
  (forall c, f (f c) = f c) -> Forall (fun c => f c = c) (map f l).
Proof.
  intros H. apply Forall_forall. intros c Hc. apply in_map_iff in Hc.
  destruct Hc as (c0 & <- & _). apply H.
Qed.

Lemma to_datetime_cell_idem c :
  to_datetime_cell (to_datetime_cell c) = to_datetime_cell c.
Proof.
  destruct c as [|q|t|d]; simpl; try reflexivity.
  - now destruct (datetime_of_number q).
  - now destruct (parse_datetime t).
Qed.

Lemma age_cell_idem c : age_cell (age_cell c) = age_cell c.
Proof.
  unfold age_cell at 2 3. destruct (to_numeric_cell c) as [|q|t|d] eqn:E;
    try reflexivity.
  - destruct (Qltb q 0 || Qltb 120 q) eqn:R; [reflexivity|].
    unfold age_cell. cbn [to_numeric_cell]. now rewrite R.
  - destruct c as [|q0|t0|d0]; simpl in E; try discriminate.
    destruct (parse_number t0); discriminate.
  - destruct c as [|q0|t0|d0]; simpl in E; try discriminate.
    destruct (parse_number t0); discriminate.
Qed.

Lemma gender_cell_idem c : gender_cell (gender_cell c) = gender_cell c.
Proof.
  unfold gender_cell at 2 3. cbv zeta.
  set (u := match lookup_text (lower (strip (text_of c))) [("m", "male"); ("f", "female")]
            with Some v => v | None => lower (strip (text_of c)) end).
  cbn [existsb].
  destruct (String.eqb_spec u "male") as [->|_]; [reflexivity|].
  destruct (String.eqb_spec u "female") as [->|_]; reflexivity.
Qed.

Lemma remove_non_digits_idem t :
  remove_non_digits (remove_non_digits t) = remove_non_digits t.
Proof.
  induction t as [|c r IH]; simpl; [reflexivity|].
  destruct (is_digit c) eqn:E; simpl; [rewrite E|]; now rewrite IH.
Qed.

Lemma phone_cell_idem c : phone_cell (phone_cell c) = phone_cell c.
Proof.
  unfold phone_cell at 2 3. cbv zeta.
  set (d := remove_non_digits (text_of c)).
  destruct (Qle_bool 7 (inject_Z (Z.of_nat (String.length d))) &&
            Qle_bool (inject_Z (Z.of_nat (String.length d))) 15) eqn:E;
    [|reflexivity].
  unfold phone_cell. cbn [text_of]. unfold d at 1 2 3.
  rewrite remove_non_digits_idem. fold d. now rewrite E.
Qed.

Lemma email_cell_idem c : email_cell (email_cell c) = email_cell c.
Proof.
  unfold email_cell at 2 3. destruct (contains "@" (text_of c)) eqn:E.
  - unfold email_cell. now rewrite E.
  - reflexivity.
Qed.

Lemma cholesterol_cell_cases c :
  cholesterol_cell c = NA \/
  exists q, cholesterol_cell c = Num q /\ 50 <= q <= 400.
Proof.
  unfold cholesterol_cell.
  assert (H : to_numeric_cell c = NA \/ exists q, to_numeric_cell c = Num q).
  { destruct c as [|q|t|d]; simpl; eauto. destruct (parse_number t); eauto. }
  destruct H as [->|[q ->]]; [now left|].
  destruct (Qltb q 50) eqn:E1; [now left|].
  destruct (Qltb 400 q) eqn:E2; [now left|].
  right. exists q. apply Qltb_false in E1, E2. auto.
Qed.

Lemma numbers_range lo hi l :
  Forall (fun c => c = NA \/ exists q, c = Num q /\ lo <= q <= hi) l ->
  Forall (fun q => lo <= q <= hi) (numbers l).
Proof.
  induction 1 as [|c r Hc Hr IH]; simpl; [constructor|].
  destruct Hc as [->|(q & -> & Hq)]; [assumption|]. now constructor.
Qed.

Lemma nth_range lo hi (l : list Q) k :
  Forall (fun q => lo <= q <= hi) l -> (k < List.length l)%nat ->
  lo <= nth k l 0 <= hi.
Proof.
  intros H Hk. rewrite Forall_forall in H. apply H. now apply nth_In.
Qed.

Lemma median_of_range lo hi l m :
  Forall (fun q => lo <= q <= hi) l -> median_of l = Some m -> lo <= m <= hi.
Proof.
  intros H. destruct l as [|x r]; [discriminate|].
  unfold median_of.
  set (s := sort (x :: r)).
  assert (Hs : Forall (fun q => lo <= q <= hi) s).
  { eapply Permutation_Forall; [apply sort_perm|exact H]. }
  assert (Hn : (0 < List.length s)%nat).
  { unfold s. rewrite sort_length. simpl. lia. }
  pose proof (Nat.div_lt (List.length s) 2 Hn ltac:(lia)) as Hhalf.
  destruct (Nat.even (List.length s)); intros [= <-].
  - pose proof (nth_range lo hi s (List.length s / 2 - 1) Hs ltac:(lia)) as H1.
    pose proof (nth_range lo hi s (List.length s / 2) Hs Hhalf) as H2.
    setoid_replace ((nth (List.length s / 2 - 1) s 0 + nth (List.length s / 2) s 0) / 2)
      with ((nth (List.length s / 2 - 1) s 0 + nth (List.length s / 2) s 0) * (1 # 2))
      by field.
    lra.
  - now apply nth_range.
Qed.

Lemma cholesterol_series_clean s :
  dtype_of (cholesterol_series s) = Numeric /\
  cholesterol_clean (values (cholesterol_series s)).
Proof.
  unfold cholesterol_series. set (l := map cholesterol_cell (values s)).
  assert (Hl : Forall (fun c => c = NA \/ exists q, c = Num q /\ 50 <= q <= 400) l).
  { apply Forall_forall. intros c Hc. apply in_map_iff in Hc.
    destruct Hc as (c0 & <- & _). apply cholesterol_cell_cases. }
  split; [now destruct (median_of (numbers l))|].
  rewrite values_fillna. cbn [values].
  destruct (median_of (numbers l)) as [m|] eqn:Em.
  - right. pose proof (median_of_range 50 400 _ m (numbers_range _ _ _ Hl) Em) as Hm.
    apply Forall_forall. intros c Hc. apply in_map_iff in Hc.
    destruct Hc as (c0 & <- & Hc0). rewrite Forall_forall in Hl.
    destruct (Hl c0 Hc0) as [->|(q & -> & Hq)]; simpl; eauto.
  - left. assert (Hn : numbers l = []).
    { unfold median_of in Em. destruct (numbers l); [reflexivity|].
      destruct (Nat.even _); discriminate. }
    apply Forall_forall. intros c Hc. apply in_map_iff in Hc.
    destruct Hc as (c0 & <- & Hc0). rewrite Forall_forall in Hl.
    destruct (Hl c0 Hc0) as [->|(q & -> & Hq)]; [reflexivity|].
    exfalso. assert (Hin : In q (numbers l)) by now apply numbers_In.
    rewrite Hn in Hin. contradiction.
Qed.

Lemma cholesterol_series_fixed s :
  dtype_of s = Numeric -> cholesterol_clean (values s) ->
  cholesterol_series s = s.
Proof.
  intros Hd Hc. destruct s as [d l]. cbn [dtype_of values] in *. subst d.
  unfold cholesterol_series. cbn [values]. destruct Hc as [Hna|Hv].
  - assert (E : map cholesterol_cell l = l).
    { apply map_fixed. eapply Forall_impl; [|exact Hna]. now intros c ->. }
    rewrite E.
    assert (Hn : numbers l = []).
    { clear E. induction Hna as [|c r Hc Hr IH]; [reflexivity|]. now subst c. }
    rewrite Hn. reflexivity.
  - assert (E : map cholesterol_cell l = l).
    { apply map_fixed. eapply Forall_impl; [|exact Hv].
      intros c (q & -> & Hq). now apply (cholesterol_cell_spec (Num q)). }
    rewrite E.
    destruct (median_of (numbers l)) as [m|]; [|reflexivity].
    unfold fillna. cbn [dtype_of values]. f_equal.
    apply map_fixed. eapply Forall_impl; [|exact Hv].
    now intros c (q & -> & _).
Qed.

Lemma cholesterol_clean_select mask l :
  cholesterol_clean l -> cholesterol_clean (select mask l).
Proof. intros [H|H]; [left|right]; now apply select_Forall. Qed.

Lemma clean_columns_visit_date df :
  getitem "Visit Date" (columns (clean_columns df)) =
  option_map to_datetime (getitem "Visit Date" (columns df)).
Proof.
  rewrite clean_columns_map_col. other_columns.
  rewrite map_col_get_same. reflexivity.
Qed.

Lemma cellwise_stable (d : dtype) (f : cell -> cell) s0 mask :
  (forall c, f (f c) = f c) ->
  mkSeries d (map f (values (select_series mask (mkSeries d (map f (values s0)))))) =
  select_series mask (mkSeries d (map f (values s0))).
Proof.
  intros H. unfold select_series. cbn [values dtype_of]. f_equal.
  apply map_fixed. apply select_Forall. now apply idem_Forall.
Qed.

Lemma email_series_stable s0 mask :
  email_series (select_series mask (email_series s0)) =
  select_series mask (email_series s0).
Proof.
  unfold email_series, select_series. cbn [values dtype_of]. f_equal.
  apply map_fixed. apply select_Forall. apply idem_Forall. apply email_cell_idem.
Qed.

Lemma cholesterol_series_stable s0 mask :
  cholesterol_series (select_series mask (cholesterol_series s0)) =
  select_series mask (cholesterol_series s0).
Proof.
  destruct (cholesterol_series_clean s0) as [Hd Hc].
  apply cholesterol_series_fixed.
  - exact Hd.
  - cbn [select_series values]. now apply cholesterol_clean_select.
Qed.

Lemma map_col_twice name F df :
  (forall s, F (F s) = F s) -> map_col name F (map_col name F df) = map_col name F df.
Proof.
  intros H. apply map_col_fixed. intros s Hs.
  rewrite map_col_get_same in Hs.
  destruct (getitem name (columns df)); [|discriminate].
  injection Hs as <-. apply H.
Qed.

Lemma cellwise_idem (d : dtype) (f : cell -> cell) s :
  (forall c, f (f c) = f c) ->
  mkSeries d (map f (values (mkSeries d (map f (values s))))) =
  mkSeries d (map f (values s)).
Proof.
  intros H. cbn [values]. f_equal. apply map_fixed. now apply idem_Forall.
Qed.

Lemma cholesterol_series_idem s :
  cholesterol_series (cholesterol_series s) = cholesterol_series s.
Proof.
  destruct (cholesterol_series_clean s) as [Hd Hc].
  now apply cholesterol_series_fixed.
Qed.

Ltac fixed_column L :=
  let s := fresh "s" in
  let Hs := fresh "Hs" in
  intros s Hs;
  rewrite getitem_boolean_index, L in Hs;
  match type of Hs with
  | context [getitem ?n (columns ?d)] => destruct (getitem n (columns d))
  end;
  [|discriminate];
  cbn [option_map] in Hs; injection Hs as <-.

Lemma clean_columns_boolean_index mask df :
  clean_columns (boolean_index mask (clean_columns df)) =
  boolean_index mask (clean_columns df).
Proof.
  set (D' := boolean_index mask (clean_columns df)).
  rewrite clean_columns_map_col.
  rewrite (map_col_fixed "Visit Date" to_datetime D').
  2:{ unfold D'. fixed_column clean_columns_visit_date.
      apply (cellwise_stable Datetime to_datetime_cell), to_datetime_cell_idem. }
  rewrite (map_col_fixed "Age" age_series D').
  2:{ unfold D'. fixed_column clean_columns_age.
      apply (cellwise_stable Numeric age_cell), age_cell_idem. }
  rewrite (map_col_fixed "Gender" gender_series D').
  2:{ unfold D'. fixed_column clean_columns_gender.
      apply (cellwise_stable Object gender_cell), gender_cell_idem. }
  rewrite (map_col_fixed "Phone Number" phone_series D').
  2:{ unfold D'. fixed_column clean_columns_phone_number.
      apply (cellwise_stable Object phone_cell), phone_cell_idem. }
  rewrite (map_col_fixed "Email" email_series D').
  2:{ unfold D'. fixed_column clean_columns_email. apply email_series_stable. }
  apply map_col_fixed.
  unfold D'. fixed_column clean_columns_cholesterol. apply cholesterol_series_stable.
Qed.

Lemma clean_columns_no_columns df : columns df = [] -> clean_columns df = df.
Proof.
  intros H. rewrite clean_columns_map_col.
  rewrite (map_col_fixed "Visit Date" to_datetime df) by (rewrite H; discriminate).
  rewrite (map_col_fixed "Age" age_series df) by (rewrite H; discriminate).
  rewrite (map_col_fixed "Gender" gender_series df) by (rewrite H; discriminate).
  rewrite (map_col_fixed "Phone Number" phone_series df) by (rewrite H; discriminate).
  rewrite (map_col_fixed "Email" email_series df) by (rewrite H; discriminate).
  apply map_col_fixed. rewrite H. discriminate.
Qed.

Lemma clean_columns_drop_duplicates df :
  clean_columns (drop_duplicates (clean_columns df)) =
  drop_duplicates (clean_columns df).
Proof.
  unfold drop_duplicates.
  destruct (columns (clean_columns df)) eqn:E.
  - now apply clean_columns_no_columns.
  - apply clean_columns_boolean_index.
Qed.

(** ** Every row has a kept representative *)

Lemma cell_eqb_refl c : cell_eqb c c = true.
Proof.
  destruct c; simpl; try reflexivity.
  - apply Qeq_bool_iff. reflexivity.
  - apply String.eqb_refl.
  - apply Z.eqb_refl.
Qed.

Lemma cell_eqb_trans a b c :
  cell_eqb a b = true -> cell_eqb b c = true -> cell_eqb a c = true.
Proof.
  destruct a, b; simpl; try discriminate; destruct c; simpl; try discriminate;
    try reflexivity.
  - rewrite !Qeq_bool_iff. intros H1 H2. now rewrite H1.
  - rewrite !String.eqb_eq. congruence.
  - rewrite !Z.eqb_eq. congruence.
Qed.

Lemma row_eqb_refl r : row_eqb r r = true.
Proof. induction r as [|c r IH]; simpl; [reflexivity|]. now rewrite cell_eqb_refl. Qed.

Lemma row_eqb_trans r1 r2 r3 :
  row_eqb r1 r2 = true -> row_eqb r2 r3 = true -> row_eqb r1 r3 = true.
Proof.
  revert r2 r3. induction r1 as [|a r1 IH]; intros [|b r2] [|c r3]; simpl;
    try discriminate; try reflexivity.
  rewrite !andb_true_iff. intros [H1 H2] [H3 H4]. split.
  - eapply cell_eqb_trans; eauto.
  - eapply IH; eauto.
Qed.

Lemma row_eqb_column cols k i p :
  row_eqb (row_at cols k) (row_at cols i) = true -> In p cols ->
  cell_eqb (nth k (values (snd p)) NA) (nth i (values (snd p)) NA) = true.
Proof.
  induction cols as [|c r IH]; simpl; [intros _ []|].
  rewrite andb_true_iff. intros [H1 H2] [->|Hin]; [assumption|now apply IH].
Qed.

Lemma nth_error_seq0 n k : (k < n)%nat -> nth_error (seq 0 n) k = Some k.
Proof.
  intros H. rewrite (nth_error_nth' _ 0%nat) by (now rewrite length_seq).
  now rewrite seq_nth.
Qed.

Lemma kept_mask_nth df k :
  (k < List.length (index df))%nat ->
  nth_error (mask_not (duplicated df)) k =
  Some (negb (existsb (fun j => row_eqb (row_at (columns df) j) (row_at (columns df) k))
                      (seq 0 k))).
Proof.
  intros H. unfold mask_not, duplicated. rewrite map_map.
  rewrite nth_error_map, nth_error_seq0 by assumption. reflexivity.
Qed.

Lemma kept_representative df i :
  (i < List.length (index df))%nat ->
  exists k, (k <= i)%nat /\
    nth_error (mask_not (duplicated df)) k = Some true /\
    row_eqb (row_at (columns df) k) (row_at (columns df) i) = true.
Proof.
  induction i as [i IH] using lt_wf_ind. intros Hi.
  destruct (existsb (fun j => row_eqb (row_at (columns df) j) (row_at (columns df) i))
                    (seq 0 i)) eqn:E.
  - apply existsb_exists in E. destruct E as (j & Hj & Hji).
    apply in_seq in Hj.
    destruct (IH j ltac:(lia) ltac:(lia)) as (k & Hk & Hm & Hkj).
    exists k. repeat split; [lia|assumption|].
    eapply row_eqb_trans; eauto.
  - exists i. repeat split; [lia| |apply row_eqb_refl].
    rewrite kept_mask_nth by assumption. now rewrite E.
Qed.

Lemma select_nth_In {A : Type} (mask : list bool) (l : list A) k x :
  nth_error mask k = Some true -> nth_error l k = Some x -> In x (select mask l).
Proof.
  revert mask l. induction k as [|k IH]; intros [|b m] [|y r]; simpl;
    try discriminate.
  - intros [= ->] [= ->]. now left.
  - intros Hm Hl. destruct b; [right|]; eapply IH; eauto.
Qed.

Lemma cholesterol_cell_eqb c' c q :
  cell_eqb c' c = true -> cholesterol_cell c = Num q ->
  exists q', cholesterol_cell c' = Num q'.
Proof.
  destruct c' as [|p'|t'|d'], c as [|p|t|d]; cbn [cell_eqb]; try discriminate.
  - rewrite Qeq_bool_iff. intros Hq. unfold cholesterol_cell. cbn [to_numeric_cell].
    destruct (Qltb p 50) eqn:E1; [discriminate|].
    destruct (Qltb 400 p) eqn:E2; [discriminate|]. intros _.
    apply Qltb_false in E1, E2.
    assert (F1 : Qltb p' 50 = false) by (apply Qltb_false; lra).
    assert (F2 : Qltb 400 p' = false) by (apply Qltb_false; lra).
    rewrite F1, F2. cbn [orb]. eauto.
  - rewrite String.eqb_eq. intros ->. eauto.
  - rewrite Z.eqb_eq. intros ->. eauto.
Qed.

Lemma median_of_some l : l <> [] -> exists m, median_of l = Some m.
Proof.
  intros H. destruct (median_of_spec l H) as (m & Hm & _). eauto.
Qed.

Lemma cholesterol_filled df s :
  getitem "Cholesterol" (columns df) = Some s ->
  List.length (values s) = List.length (index df) ->
  (exists c q, In c (values s) /\ to_numeric_cell c = Num q /\ 50 <= q <= 400) ->
  exists s',
    getitem "Cholesterol" (columns (fst (clean_data df))) = Some s' /\
    ~ In NA (values s').
Proof.
  intros Hs Hlen (c & q & Hc & Hq & Hr).
  unfold clean_data. cbn [fst].
  rewrite clean_columns_cholesterol, getitem_drop_duplicates, Hs. cbn [option_map].
  eexists. split; [reflexivity|].
  unfold cholesterol_series. rewrite values_fillna. cbn [select_series values].
  set (kept := select (mask_not (duplicated df)) (values s)).
  assert (Hkept : exists c' q', In c' kept /\ cholesterol_cell c' = Num q').
  { destruct (In_nth_error _ _ Hc) as [i Hi].
    assert (Hlt : (i < List.length (index df))%nat).
    { rewrite <- Hlen. apply nth_error_Some. congruence. }
    destruct (kept_representative df i Hlt) as (k & Hk & Hm & Hrow).
    destruct (getitem_In _ _ _ Hs) as [n Hn].
    pose proof (row_eqb_column _ _ _ _ Hrow Hn) as Hcell. cbn [snd] in Hcell.
    rewrite (nth_error_nth _ _ NA Hi) in Hcell.
    pose proof (proj2 (proj2 (cholesterol_cell_spec c)) q Hq Hr) as Hcc.
    destruct (cholesterol_cell_eqb _ _ _ Hcell Hcc) as [q' Hq'].
    exists (nth k (values s) NA), q'. split; [|assumption].
    apply (select_nth_In _ _ k); [assumption|].
    apply nth_error_nth'. lia. }
  destruct Hkept as (c' & q' & Hin' & Hc').
  assert (Hne : numbers (map cholesterol_cell kept) <> []).
  { intros E. assert (Hq' : In q' (numbers (map cholesterol_cell kept))).
    { apply numbers_In. rewrite <- Hc'. now apply in_map. }
    rewrite E in Hq'. contradiction. }
  destruct (median_of_some _ Hne) as [m ->].
  intros Hna. apply in_map_iff in Hna. destruct Hna as (x & Hx & _).
  destruct x; discriminate.
Qed.

Lemma select_all_true {A : Type} (mask : list bool) (l : list A) :
  Forall (fun b => b = true) mask -> List.length mask = List.length l ->
  select mask l = l.
Proof.
  intros H. revert l. induction H as [|b m Hb Hm IH]; intros [|x r]; simpl;
    try reflexivity; try discriminate.
  intros [= Hlen]. subst b. now rewrite IH.
Qed.

Lemma drop_duplicates_none df :
  Forall (fun c => List.length (values (snd c)) = List.length (index df)) (columns df) ->
  Forall (fun b => b = false) (duplicated df) ->
  drop_duplicates df = df.
Proof.
  intros Hc Hd. unfold drop_duplicates. destruct (columns df) eqn:E; [reflexivity|].
  rewrite <- E in *. clear E.
  assert (Hm : Forall (fun b => b = true) (mask_not (duplicated df))).
  { unfold mask_not. apply Forall_forall. intros b Hb. apply in_map_iff in Hb.
    destruct Hb as (b0 & <- & Hb0). rewrite Forall_forall in Hd.
    now rewrite (Hd b0 Hb0). }
  assert (Hl : List.length (mask_not (duplicated df)) = List.length (index df)).
  { unfold mask_not, duplicated. now rewrite !length_map, length_seq. }
  unfold boolean_index. destruct df as [idx cols]. cbn [index columns] in *.
  f_equal.
  - now apply select_all_true.
  - rewrite <- (map_id cols) at 2. apply map_ext_in. intros [n s] Hin.
    rewrite Forall_forall in Hc. specialize (Hc _ Hin). cbn [fst snd] in *.
    rewrite select_all_true by (assumption || congruence). now destruct s.
Qed.

(** C3 (amended). Every column rule is idempotent, the Cholesterol rule
    with its median fill included. Running [clean_data] on a cleaned table
    gives that table with its duplicate rows dropped: the first pass can
    turn distinct rows into equal ones, which the second pass then drops;
    when the cleaned table has no duplicate rows the second pass changes
    nothing. After one pass the Cholesterol column has no missing value
    as soon as one Cholesterol value of the input is valid. *)
Theorem clean_data_twice :
  (forall df : DataFrame,
     clean_visit_date (clean_visit_date df) = clean_visit_date df /\
     clean_age (clean_age df) = clean_age df /\
     clean_gender (clean_gender df) = clean_gender df /\
     clean_phone_number (clean_phone_number df) = clean_phone_number df /\
     clean_email (clean_email df) = clean_email df /\
     clean_cholesterol (clean_cholesterol df) = clean_cholesterol df /\
     clean_blood_pressure (clean_blood_pressure df) = clean_blood_pressure df) /\
  (forall df : DataFrame,
     let once := fst (clean_data df) in
     fst (clean_data once) = drop_duplicates once /\
     (Forall (fun c => List.length (values (snd c)) = List.length (index once))
             (columns once) ->
      Forall (fun b => b = false) (duplicated once) ->
      fst (clean_data once) = once)) /\
  (forall (df : DataFrame) (s : Series),
     getitem "Cholesterol" (columns df) = Some s ->
     List.length (values s) = List.length (index df) ->
     (exists c q, In c (values s) /\ to_numeric_cell c = Num q /\ 50 <= q <= 400) ->
     exists s',
       getitem "Cholesterol" (columns (fst (clean_data df))) = Some s' /\
       ~ In NA (values s')).
Proof.
  split; [|split].
  - intros df.
    rewrite clean_visit_date_map_col, clean_age_map_col, clean_gender_map_col,
      clean_phone_number_map_col, clean_email_map_col, clean_cholesterol_map_col.
    rewrite !clean_visit_date_map_col, !clean_age_map_col, !clean_gender_map_col,
      !clean_phone_number_map_col, !clean_email_map_col, !clean_cholesterol_map_col.
    rewrite !clean_blood_pressure_id.
    repeat split; apply map_col_twice; intros s.
    + apply (cellwise_idem Datetime to_datetime_cell), to_datetime_cell_idem.
    + apply (cellwise_idem Numeric age_cell), age_cell_idem.
    + apply (cellwise_idem Object gender_cell), gender_cell_idem.
    + apply (cellwise_idem Object phone_cell), phone_cell_idem.
    + unfold email_series. cbn [values dtype_of]. f_equal.
      apply map_fixed, idem_Forall, email_cell_idem.
    + apply cholesterol_series_idem.
  - intros df once.
    assert (H : fst (clean_data once) = drop_duplicates once).
    { unfold once, clean_data. cbn [fst]. apply clean_columns_drop_duplicates. }
    split; [exact H|].
    intros Hc Hd. rewrite H. now apply drop_duplicates_none.
  - apply cholesterol_filled.
Qed.

End PipelineFacts.

(** * Properties of the whole pipeline *)

Section WholePipeline.

Context {conv : PandasConversions}.


(** ** The shape of the cleaned table *)

Lemma setitem_names name s cols :
  getitem name cols <> None -> map fst (setitem name s cols) = map fst cols.
Proof.
  induction cols as [|[n s0] rest IH]; simpl; [congruence|].
  destruct (String.eqb n name) eqn:E; simpl; [reflexivity|].
  intros H. now rewrite IH.
Qed.

Lemma map_col_names name F df :
  map fst (columns (map_col name F df)) = map fst (columns df).
Proof.
  unfold map_col. destruct (getitem name (columns df)) as [s|] eqn:E; [|reflexivity].
  simpl. apply setitem_names. congruence.
Qed.

Lemma boolean_index_names mask df :
  map fst (columns (boolean_index mask df)) = map fst (columns df).
Proof. unfold boolean_index. simpl. rewrite map_map. reflexivity. Qed.

Lemma drop_duplicates_names df :
  map fst (columns (drop_duplicates df)) = map fst (columns df).
Proof.
  unfold drop_duplicates. destruct (columns df) eqn:E; [now rewrite E|].
  rewrite boolean_index_names. now rewrite E.
Qed.

Lemma clean_columns_names df :
  map fst (columns (clean_columns df)) = map fst (columns df).
Proof. rewrite clean_columns_map_col. now rewrite !map_col_names. Qed.

Lemma select_length_le {A : Type} (mask : list bool) (l : list A) :
  (List.length (select mask l) <= List.length l)%nat.
Proof.
  revert l. induction mask as [|b m IH]; intros [|x r]; simpl; try lia.
  specialize (IH r). destruct b; simpl; lia.
Qed.

Lemma select_length_eq {A B : Type} (mask : list bool) (l1 : list A) (l2 : list B) :
  List.length l1 = List.length l2 ->
  List.length (select mask l1) = List.length (select mask l2).
Proof.
  revert l1 l2. induction mask as [|b m IH]; intros [|x r] [|y t]; simpl;
    try reflexivity; try discriminate.
  intros [= H]. destruct b; simpl; now rewrite (IH r t H).
Qed.

Lemma select_NoDup {A : Type} (mask : list bool) (l : list A) :
  NoDup l -> NoDup (select mask l).
Proof.
  intros H. revert mask. induction H as [|x r Hx Hr IH]; intros [|b m]; simpl;
    try constructor.
  destruct b; [|apply IH].
  constructor; [|apply IH]. intros Hin. apply Hx. eapply select_In; eauto.
Qed.

Lemma setitem_Forall (P : string * Series -> Prop) name s cols :
  Forall P cols -> (forall n, P (n, s)) -> Forall P (setitem name s cols).
Proof.
  intros H Hs. induction H as [|[n s0] rest Hp Hr IH]; simpl.
  - constructor; [apply Hs|constructor].
  - destruct (String.eqb n name); constructor; auto.
Qed.

Lemma map_col_lengths name F df :
  (forall s, List.length (values (F s)) = List.length (values s)) ->
  column_lengths df -> column_lengths (map_col name F df).
Proof.
  intros HF H. unfold column_lengths, map_col in *.
  destruct (getitem name (columns df)) as [s|] eqn:E; [|exact H].
  cbn [set_col index columns]. apply setitem_Forall; [exact H|].
  intros n. cbn [snd]. rewrite HF.
  destruct (getitem_In _ _ _ E) as [n' Hn'].
  rewrite Forall_forall in H. exact (H _ Hn').
Qed.

Lemma cholesterol_series_length s :
  List.length (values (cholesterol_series s)) = List.length (values s).
Proof.
  unfold cholesterol_series. rewrite values_fillna. cbn [values].
  now rewrite !length_map.
Qed.

Lemma clean_columns_lengths df :
  column_lengths df -> column_lengths (clean_columns df).
Proof.
  intros H. rewrite clean_columns_map_col.
  apply map_col_lengths; [apply cholesterol_series_length|].
  apply map_col_lengths; [intros s; cbn [email_series values]; apply length_map|].
  apply map_col_lengths; [intros s; cbn [phone_series values]; apply length_map|].
  apply map_col_lengths; [intros s; cbn [gender_series values]; apply length_map|].
  apply map_col_lengths; [intros s; cbn [age_series values]; apply length_map|].
  apply map_col_lengths; [intros s; cbn [to_datetime values]; apply length_map|].
  exact H.
Qed.

Lemma boolean_index_lengths mask df :
  column_lengths df -> column_lengths (boolean_index mask df).
Proof.
  unfold column_lengths, boolean_index. cbn [index columns]. intros H.
  apply Forall_forall. intros c Hc. apply in_map_iff in Hc.
  destruct Hc as (c0 & <- & Hc0). cbn [snd values].
  apply select_length_eq. rewrite Forall_forall in H. exact (H _ Hc0).
Qed.

Lemma drop_duplicates_lengths df :
  column_lengths df -> column_lengths (drop_duplicates df).
Proof.
  intros H. unfold drop_duplicates. destruct (columns df) eqn:E; [exact H|].
  now apply boolean_index_lengths.
Qed.

Lemma drop_duplicates_index df :
  columns df <> [] ->
  index (drop_duplicates df) = select (mask_not (duplicated df)) (index df).
Proof.
  intros H. unfold drop_duplicates. destruct (columns df); [congruence|reflexivity].
Qed.

Lemma drop_duplicates_NoDup df :
  NoDup (index df) -> NoDup (index (drop_duplicates df)).
Proof.
  intros H. unfold drop_duplicates. destruct (columns df); [exact H|].
  cbn [boolean_index index]. now apply select_NoDup.
Qed.

(** X1. [clean_data] keeps a table well formed: the row labels stay
    distinct and every column stays as long as the index. *)
Theorem clean_data_well_formed (df : DataFrame) :
  well_formed df -> well_formed (fst (clean_data df)).
Proof.
  intros [Hnd Hlen]. unfold clean_data. cbn [fst]. split.
  - rewrite clean_columns_index. now apply drop_duplicates_NoDup.
  - apply clean_columns_lengths. now apply drop_duplicates_lengths.
Qed.

(** X2. [clean_data] never adds, removes, renames or reorders a column;
    it never relabels a row: the rows it keeps carry the labels they had,
    in their order, and there are no more of them than before. *)
Theorem clean_data_shape (df : DataFrame) :
  map fst (columns (fst (clean_data df))) = map fst (columns df) /\
  (List.length (index (fst (clean_data df))) <= List.length (index df))%nat /\
  (columns df <> [] ->
   index (fst (clean_data df)) = select (mask_not (duplicated df)) (index df)) /\
  (columns df = [] -> fst (clean_data df) = df).
Proof.
  unfold clean_data. cbn [fst]. rewrite clean_columns_index. repeat split.
  - rewrite clean_columns_names. apply drop_duplicates_names.
  - unfold drop_duplicates. destruct (columns df); [lia|].
    cbn [boolean_index index]. apply select_length_le.
  - apply drop_duplicates_index.
  - intros H. unfold drop_duplicates. rewrite H.
    now apply clean_columns_no_columns.
Qed.

(** X3. A column that is none of Visit Date, Age, Gender, Phone Number,
    Email and Cholesterol leaves [clean_data] as it entered, with its
    dtype, restricted to the rows that are kept; Blood Pressure is such a
    column. *)
Theorem clean_data_other_columns (df : DataFrame) (name : string) :
  name <> "Visit Date" -> name <> "Age" -> name <> "Gender" ->
  name <> "Phone Number" -> name <> "Email" -> name <> "Cholesterol" ->
  getitem name (columns (fst (clean_data df))) =
  option_map (select_series (mask_not (duplicated df))) (getitem name (columns df)).
Proof.
  intros H1 H2 H3 H4 H5 H6. unfold clean_data. cbn [fst].
  rewrite clean_columns_map_col.
  rewrite !map_col_get_other
    by (apply String.eqb_neq; intros E; symmetry in E; contradiction).
  apply getitem_drop_duplicates.
Qed.

Lemma age_cell_cases c :
  age_cell c = NA \/ exists q, age_cell c = Num q /\ 0 <= q <= 120.
Proof.
  unfold age_cell.
  assert (H : to_numeric_cell c = NA \/ exists q, to_numeric_cell c = Num q).
  { destruct c as [|q|t|d]; simpl; eauto. destruct (parse_number t); eauto. }
  destruct H as [->|[q ->]]; [now left|].
  destruct (Qltb q 0) eqn:E1; [now left|].
  destruct (Qltb 120 q) eqn:E2; [now left|].
  right. exists q. apply Qltb_false in E1, E2. auto.
Qed.

Lemma to_datetime_cell_cases c :
  to_datetime_cell c = NA \/ exists t, to_datetime_cell c = Date t.
Proof.
  destruct c as [|q|t|d]; simpl; eauto.
  - destruct (datetime_of_number q); eauto.
  - destruct (parse_datetime t); eauto.
Qed.

Lemma Forall_map_cases {A B : Type} (f : A -> B) (P : B -> Prop) (l : list A) :
  (forall a, P (f a)) -> Forall P (map f l).
Proof.
  intros H. apply Forall_forall. intros b Hb. apply in_map_iff in Hb.
  destruct Hb as (a & <- & _). apply H.
Qed.

Ltac cleaned_column L :=
  let s0 := fresh "s0" in
  unfold clean_data; cbn [fst]; rewrite L, getitem_drop_duplicates;
  match goal with
  | |- context [getitem ?n (columns ?d)] => destruct (getitem n (columns d)) as [s0|]
  end;
  cbn [option_map]; [|discriminate];
  let H := fresh "H" in intros H; injection H as <-.

(** X4. After [clean_data] the numeric columns are in their domains: an
    Age is missing or a number in [0,120]; the Cholesterol column is
    either all missing or all numbers in [50,400] (the filled values
    included); a Visit Date is missing or a timestamp. The three columns
    have the numeric, numeric and datetime dtype. *)
Theorem clean_data_numeric_domains (df : DataFrame) :
  (forall s', getitem "Age" (columns (fst (clean_data df))) = Some s' ->
     dtype_of s' = Numeric /\
     Forall (fun c => c = NA \/ exists q, c = Num q /\ 0 <= q <= 120) (values s')) /\
  (forall s', getitem "Cholesterol" (columns (fst (clean_data df))) = Some s' ->
     dtype_of s' = Numeric /\
     (Forall (fun c => c = NA) (values s') \/
      Forall (fun c => exists q, c = Num q /\ 50 <= q <= 400) (values s'))) /\
  (forall s', getitem "Visit Date" (columns (fst (clean_data df))) = Some s' ->
     dtype_of s' = Datetime /\
     Forall (fun c => c = NA \/ exists t, c = Date t) (values s')).
Proof.
  split; [|split]; intros s'.
  - cleaned_column clean_columns_age. split; [reflexivity|].
    cbn [age_series values]. apply Forall_map_cases. intros c.
    destruct (age_cell_cases c) as [->|(q & -> & Hq)]; eauto.
  - cleaned_column clean_columns_cholesterol.
    apply cholesterol_series_clean.
  - cleaned_column clean_columns_visit_date. split; [reflexivity|].
    cbn [to_datetime values]. apply Forall_map_cases. intros c.
    destruct (to_datetime_cell_cases c) as [->|(t & ->)]; eauto.
Qed.

Lemma gender_cell_cases c :
  gender_cell c = NA \/ gender_cell c = Str "male" \/ gender_cell c = Str "female".
Proof.
  unfold gender_cell. cbv zeta.
  set (u := match lookup_text (lower (strip (text_of c))) [("m", "male"); ("f", "female")]
            with Some v => v | None => lower (strip (text_of c)) end).
  cbn [existsb].
  destruct (String.eqb_spec u "male") as [->|_]; [right; now left|].
  destruct (String.eqb_spec u "female") as [->|_]; [right; now right|now left].
Qed.

Lemma remove_non_digits_all_digits t :
  forallb is_digit (chars (remove_non_digits t)) = true.
Proof.
  rewrite remove_non_digits_chars. apply forallb_forall. intros c Hc.
  apply filter_In in Hc. apply Hc.
Qed.

Lemma phone_cell_cases c :
  phone_cell c = NA \/
  exists d, phone_cell c = Str d /\ forallb is_digit (chars d) = true /\
            (7 <= String.length d <= 15)%nat.
Proof.
  unfold phone_cell. cbv zeta. set (d := remove_non_digits (text_of c)).
  change 7 with (inject_Z (Z.of_nat 7)). change 15 with (inject_Z (Z.of_nat 15)).
  rewrite !Qle_bool_nat.
  destruct (7 <=? String.length d)%nat eqn:E1; [|now left].
  destruct (String.length d <=? 15)%nat eqn:E2; [|now left].
  right. exists d. apply Nat.leb_le in E1, E2. repeat split; try assumption.
  apply remove_non_digits_all_digits.
Qed.

Lemma email_cell_cases c :
  email_cell c = NA \/ (email_cell c = c /\ In "@"%char (chars (text_of c))).
Proof.
  unfold email_cell. destruct (contains "@" (text_of c)) eqn:E; [|now left].
  right. split; [reflexivity|]. now apply contains_at.
Qed.

(** X5. After [clean_data] the text columns are in their domains: a
    Gender is missing, "male" or "female"; a Phone Number is missing or a
    text of 7 to 15 characters, all digits; an Email is missing or a value
    whose text contains "@". Gender and Phone Number have the object
    dtype. *)
Theorem clean_data_text_domains (df : DataFrame) :
  (forall s', getitem "Gender" (columns (fst (clean_data df))) = Some s' ->
     dtype_of s' = Object /\
     Forall (fun c => c = NA \/ c = Str "male" \/ c = Str "female") (values s')) /\
  (forall s', getitem "Phone Number" (columns (fst (clean_data df))) = Some s' ->
     dtype_of s' = Object /\
     Forall (fun c => c = NA \/
                      exists d, c = Str d /\ forallb is_digit (chars d) = true /\
                                (7 <= String.length d <= 15)%nat) (values s')) /\
  (forall s', getitem "Email" (columns (fst (clean_data df))) = Some s' ->
     Forall (fun c => c = NA \/ In "@"%char (chars (text_of c))) (values s')).
Proof.
  split; [|split]; intros s'.
  - cleaned_column clean_columns_gender. split; [reflexivity|].
    cbn [gender_series values]. apply Forall_map_cases, gender_cell_cases.
  - cleaned_column clean_columns_phone_number. split; [reflexivity|].
    cbn [phone_series values]. apply Forall_map_cases, phone_cell_cases.
  - cleaned_column clean_columns_email.
    cbn [email_series values]. apply Forall_map_cases. intros c.
    destruct (email_cell_cases c) as [->|[-> H]]; auto.
Qed.

(** ** drop_duplicates *)

Lemma duplicated_length df : List.length (duplicated df) = List.length (index df).
Proof. unfold duplicated. now rewrite length_map, length_seq. Qed.

(** ** detect_anomalies never raises *)

Lemma positions_from_valid start l idx p :
  In p (positions_from start l idx) ->
  (start <= p)%nat /\ nth_error idx (p - start) = Some l.
Proof.
  revert start. induction idx as [|x r IH]; intros start; simpl; [intros []|].
  assert (Hrec : In p (positions_from (S start) l r) ->
                 (start <= p)%nat /\ nth_error (x :: r) (p - start) = Some l).
  { intros H. destruct (IH _ H) as [H1 H2]. split; [lia|].
    replace (p - start)%nat with (S (p - S start)) by lia. exact H2. }
  destruct (Nat.eqb_spec x l) as [->|_]; [|exact Hrec].
  intros [<-|H]; [|now apply Hrec].
  split; [lia|]. now rewrite Nat.sub_diag.
Qed.

Lemma loc_positions_valid labels idx ps :
  loc_positions labels idx = Returned ps ->
  Forall (fun p => exists l, nth_error idx p = Some l) ps.
Proof.
  revert ps. induction labels as [|l r IH]; simpl; intros ps.
  - intros [= <-]. constructor.
  - destruct (positions l idx) as [|q qs] eqn:E; [discriminate|].
    destruct (loc_positions r idx) as [rs|e]; [|discriminate].
    intros [= <-]. change (q :: qs ++ rs) with ((q :: qs) ++ rs).
    apply Forall_app. split; [|now apply IH].
    apply Forall_forall. intros p Hp. rewrite <- E in Hp.
    apply positions_from_valid in Hp. rewrite Nat.sub_0_r in Hp.
    exists l. apply Hp.
Qed.

Lemma anomaly_labels_in_index df s :
  Forall (fun l => In l (index df)) (anomaly_labels df s).
Proof.
  unfold anomaly_labels. cbv zeta. apply Forall_forall. intros l Hl.
  apply select_In in Hl. now apply dropna_fst_In in Hl.
Qed.

Lemma take_rows_names ps df :
  map fst (columns (take_rows ps df)) = map fst (columns df).
Proof. unfold take_rows. cbn [columns]. rewrite map_map. reflexivity. Qed.

(** X7. [detect_anomalies] never raises, whatever the table and the column
    name: it returns a table, only adds lines to the output and leaves the
    caller's table as it was. When the column exists, the returned table
    has the columns of the input, in their order, and every row label of
    it is a label of the input; when it does not, the returned table has
    no column at all. *)
Theorem detect_anomalies_returns (w : world) (column : string) :
  exists anomalies printed,
    detect_anomalies column w =
      (mkWorld (table w) (stdout w ++ printed), Returned anomalies) /\
    (getitem column (columns (table w)) <> None ->
     map fst (columns anomalies) = map fst (columns (table w)) /\
     Forall (fun l => In l (index (table w))) (index anomalies)) /\
    (getitem column (columns (table w)) = None -> anomalies = empty_frame).
Proof.
  destruct (getitem column (columns (table w))) as [s|] eqn:Hs.
  - rewrite (detect_anomalies_present w column s Hs). unfold loc.
    destruct (loc_positions_total _ _ (anomaly_labels_in_index (table w) s))
      as [ps Hps].
    rewrite Hps. eexists. eexists. split; [reflexivity|]. split; [|discriminate].
    intros _. split; [apply take_rows_names|].
    cbn [take_rows index]. apply Forall_forall. intros l Hl.
    apply in_map_iff in Hl. destruct Hl as (p & <- & Hp).
    pose proof (loc_positions_valid _ _ _ Hps) as Hv.
    rewrite Forall_forall in Hv. destruct (Hv p Hp) as [l Hl].
    rewrite (nth_error_nth _ _ _ Hl). eapply nth_error_In; eauto.
  - unfold detect_anomalies, bind, get_table, has_column. rewrite Hs.
    cbn. eexists. eexists. split; [reflexivity|]. split; [congruence|reflexivity].
Qed.

(** ** How many rows detect_anomalies can return *)

Lemma sq_sum_nonneg l : 0 <= sq_sum l.
Proof.
  induction l as [|a r IH]; [vm_compute; discriminate|].
  change (sq_sum (a :: r)) with (a * a + sq_sum r).
  pose proof (Qsq_nonneg a). lra.
Qed.

(** The square of a sum is at most the length times the sum of the
    squares. *)
Lemma qsum_sq_le l : qsum l * qsum l <= qlen l * sq_sum l.
Proof.
  induction l as [|a r IH]; [vm_compute; discriminate|].
  rewrite qlen_cons.
  change (qsum (a :: r)) with (a + qsum r).
  change (sq_sum (a :: r)) with (a * a + sq_sum r).
  pose proof (sq_sum_nonneg r) as HS.
  destruct r as [|b r'].
  - change (qsum []) with 0. change (sq_sum []) with 0.
    change (qlen []) with 0. pose proof (Qsq_nonneg a). nra.
  - pose proof (qlen_pos b r') as Hk.
    set (s := qsum (b :: r')) in *. set (k := qlen (b :: r')) in *.
    set (S2 := sq_sum (b :: r')) in *.
    pose proof (Qsq_nonneg (s - k * a)) as Hsq.
    assert (Hp : 0 <= k * (S2 + k * (a * a) - 2 * (a * s))) by nra.
    assert (Hf : 0 <= S2 + k * (a * a) - 2 * (a * s)).
    { destruct (Qlt_le_dec (S2 + k * (a * a) - 2 * (a * s)) 0) as [Hneg|]; [|assumption].
      exfalso. nra. }
    nra.
Qed.

Lemma qsum_map_sub m l : qsum (map (fun y => y - m) l) == qsum l - qlen l * m.
Proof.
  induction l as [|a r IH]; [vm_compute; reflexivity|].
  rewrite qlen_cons. simpl map.
  change (qsum (a - m :: map (fun y => y - m) r))
    with ((a - m) + qsum (map (fun y => y - m) r)).
  change (qsum (a :: r)) with (a + qsum r). rewrite IH. ring.
Qed.

(** No value is further from the mean than the square root of [n - 1]
    times the standard deviation. *)
Lemma deviation_bound pre x post m :
  let l := pre ++ x :: post in
  m * qlen l == qsum l ->
  (x - m) * (x - m) * qlen l <=
  (qlen l - 1) * qsum (map (fun y => (y - m) * (y - m)) l).
Proof.
  intros l Hm. set (rest := pre ++ post).
  pose proof (qsum_sq_le (map (fun y => y - m) rest)) as Hpm.
  rewrite qsum_map_sub in Hpm.
  assert (Hlen : qlen (map (fun y => y - m) rest) = qlen rest).
  { unfold qlen. now rewrite length_map. }
  rewrite Hlen in Hpm.
  assert (Hsq : sq_sum (map (fun y => y - m) rest) =
                qsum (map (fun y => (y - m) * (y - m)) rest)).
  { unfold sq_sum. now rewrite map_map. }
  rewrite Hsq in Hpm.
  assert (HT : qsum (map (fun y => (y - m) * (y - m)) l) ==
               qsum (map (fun y => (y - m) * (y - m)) rest) + (x - m) * (x - m)).
  { unfold l, rest. rewrite !map_app. simpl map. apply qsum_insert. }
  assert (HS : qsum l == qsum rest + x) by apply qsum_insert.
  assert (Hn : qlen l == qlen rest + 1) by apply qlen_insert.
  pose proof (qlen_nonneg rest) as Hk.
  rewrite HT, Hn. rewrite HS, Hn in Hm.
  set (T := qsum (map (fun y => (y - m) * (y - m)) rest)) in *.
  set (S := qsum rest) in *. set (k := qlen rest) in *.
  assert (Hd : S - k * m == - (x - m)) by lra.
  rewrite Hd in Hpm.
  nra.
Qed.

Lemma variance_times_len m a r :
  variance_about m (a :: r) * qlen (a :: r) ==
  qsum (map (fun y => (y - m) * (y - m)) (a :: r)).
Proof.
  unfold variance_about. field. pose proof (qlen_pos a r). lra.
Qed.

Lemma qlen_le l n : (List.length l <= n)%nat -> qlen l <= inject_Z (Z.of_nat n).
Proof. intros H. unfold qlen. rewrite <- Zle_Qle. lia. Qed.

Lemma is_anomaly_small nums x :
  (List.length nums <= 10)%nat -> In x nums -> is_anomaly nums (Num x) = false.
Proof.
  intros Hlen Hin. destruct (in_split _ _ Hin) as (pre & post & ->).
  unfold is_anomaly. rewrite mean_of_insert.
  set (l := pre ++ x :: post) in *. set (m := qsum l / qlen l).
  destruct (z_gt _ 3) eqn:E; [|reflexivity]. exfalso.
  apply z_gt_abs_iff in E. destruct E as [Hv Hd].
  assert (Hpos : 0 < qlen l).
  { unfold l. rewrite qlen_insert. pose proof (qlen_nonneg (pre ++ post)). lra. }
  assert (Hm : m * qlen l == qsum l). { unfold m. field. lra. }
  pose proof (deviation_bound pre x post m Hm) as Hb. fold l in Hb.
  assert (HV : variance_about m l * qlen l ==
               qsum (map (fun y => (y - m) * (y - m)) l)).
  { unfold variance_about. field. lra. }
  rewrite <- HV in Hb.
  pose proof (qlen_le l 10 Hlen) as Hn. change (inject_Z (Z.of_nat 10)) with 10 in Hn.
  set (v := variance_about m l) in *. set (n := qlen l) in *.
  set (d := (x - m) * (x - m)) in *.
  assert (H1 : d <= (n - 1) * v).
  { destruct (Qlt_le_dec ((n - 1) * v) d) as [Hlt|]; [|assumption].
    exfalso. nra. }
  nra.
Qed.

Lemma dropna_length_le idx cells :
  (List.length (dropna idx cells) <= List.length (numbers cells))%nat.
Proof.
  revert cells. induction idx as [|i r IH]; intros [|c cells]; simpl; try lia.
  all: specialize (IH cells); destruct c; simpl; lia.
Qed.

Lemma zscore_flags l :
  map (fun z => z_gt z 3) (map z_abs (zscore l)) =
  map (fun x => is_anomaly l (Num x)) l.
Proof.
  unfold zscore, is_anomaly. destruct (mean_of l) as [m|] eqn:E.
  - rewrite !map_map. reflexivity.
  - destruct l; [reflexivity|discriminate].
Qed.

(** X8. A column with at most nine numeric values never yields an
    anomaly: among [n] values no standard score exceeds the square root
    of [n - 1], so [detect_anomalies] returns a table without rows. Among
    the eleven values [eleven] the last one is flagged. *)
Theorem detect_anomalies_small_sample (w : world) (column : string) (s : Series) :
  getitem column (columns (table w)) = Some s ->
  (List.length (numbers (values (to_numeric s))) <= 9)%nat ->
  detect_anomalies column w =
    (mkWorld (table w) (stdout w ++ report column (take_rows [] (table w))),
     Returned (take_rows [] (table w))) /\
  index (take_rows [] (table w)) = [] /\
  is_anomaly eleven (Num 1) = true.
Proof.
  intros Hs Hlen.
  rewrite (detect_anomalies_present w column s Hs).
  assert (Hl : anomaly_labels (table w) s = []).
  { unfold anomaly_labels. cbv zeta. rewrite zscore_flags.
    set (vals := dropna (index (table w)) (values (to_numeric s))).
    apply select_all_false. apply Forall_forall. intros b Hb.
    apply in_map_iff in Hb. destruct Hb as (x & <- & Hx).
    apply is_anomaly_small; [|assumption].
    rewrite length_map. pose proof (dropna_length_le (index (table w))
      (values (to_numeric s))). fold vals in H. lia. }
  rewrite Hl. unfold loc. cbn [loc_positions].
  split; [reflexivity|]. split; reflexivity.
Qed.

Lemma select_flag_count {A : Type} (g : Q -> bool) cells (idx : list A) :
  List.length idx = List.length cells ->
  List.length
    (select (map (fun c => match c with Num x => g x | _ => false end) cells) idx) =
  List.length (filter g (numbers cells)).
Proof.
  revert idx. induction cells as [|c r IH]; intros [|i idx]; simpl;
    try reflexivity; try discriminate.
  intros [= H]. specialize (IH idx H).
  destruct c; simpl; try exact IH.
  destruct (g q); simpl; now rewrite IH.
Qed.

(** The flagged values carry more than nine times the variance each. *)
Lemma flagged_mass (g : Q -> bool) m v l :
  0 <= v ->
  (forall x, g x = true -> 9 * v < (x - m) * (x - m)) ->
  9 * v * qlen (filter g l) <= qsum (map (fun y => (y - m) * (y - m)) l).
Proof.
  intros Hv Hg. induction l as [|a r IH].
  { simpl filter. simpl map. change (qlen []) with 0. change (qsum []) with 0. lra. }
  simpl map.
  change (qsum ((a - m) * (a - m) :: map (fun y => (y - m) * (y - m)) r))
    with ((a - m) * (a - m) + qsum (map (fun y => (y - m) * (y - m)) r)).
  simpl filter. pose proof (Qsq_nonneg (a - m)) as Hsq.
  destruct (g a) eqn:E.
  - rewrite qlen_cons. specialize (Hg a E). lra.
  - lra.
Qed.

Lemma qlen_nat_le (l1 l2 : list Q) :
  9 * qlen l1 <= qlen l2 -> (9 * List.length l1 <= List.length l2)%nat.
Proof.
  unfold qlen. change 9 with (inject_Z 9). rewrite <- inject_Z_mult, <- Zle_Qle. lia.
Qed.

Lemma flagged_count nums :
  (9 * List.length (filter (fun x => is_anomaly nums (Num x)) nums) <=
   List.length nums)%nat.
Proof.
  destruct nums as [|a r]; [simpl; lia|].
  set (l := a :: r). apply qlen_nat_le.
  assert (Hmean : mean_of l = Some (qsum l / qlen l)) by reflexivity.
  set (m := qsum l / qlen l) in *. set (v := variance_about m l).
  assert (Hflag : forall x, is_anomaly l (Num x) = true ->
                            0 < v /\ 9 * v < (x - m) * (x - m)).
  { intros x Hx. unfold is_anomaly in Hx. rewrite Hmean in Hx.
    now apply z_gt_abs_iff in Hx. }
  pose proof (qlen_pos a r) as Hn. fold l in Hn.
  destruct (Qlt_le_dec 0 v) as [Hv|Hv].
  - assert (Hb := flagged_mass (fun x => is_anomaly l (Num x)) m v l
                    (Qlt_le_weak _ _ Hv) (fun x Hx => proj2 (Hflag x Hx))).
    pose proof (variance_times_len m a r) as HV. fold l v in HV.
    set (T := qsum (map (fun y => (y - m) * (y - m)) l)) in *.
    set (c := qlen (filter (fun x => is_anomaly l (Num x)) l)) in *.
    set (n := qlen l) in *.
    destruct (Qlt_le_dec n (9 * c)) as [Hlt|]; [|assumption].
    exfalso. nra.
  - rewrite (filter_ext (fun x => is_anomaly l (Num x)) (fun _ => false)).
    + rewrite filter_false. change (qlen []) with 0. lra.
    + intros x. destruct (is_anomaly l (Num x)) eqn:E; [|reflexivity].
      destruct (Hflag x E) as [H0 _]. lra.
Qed.

(** X9. On a table with distinct row labels and columns as long as the
    index, the rows that [detect_anomalies] returns are at most one ninth
    of the numeric values of the column. *)
Theorem detect_anomalies_few_rows (w : world) (column : string) (s : Series) :
  well_formed (table w) ->
  getitem column (columns (table w)) = Some s ->
  exists anomalies,
    detect_anomalies column w =
      (mkWorld (table w) (stdout w ++ report column anomalies), Returned anomalies) /\
    (9 * List.length (index anomalies) <=
     List.length (numbers (values (to_numeric s))))%nat.
Proof.
  intros Hwf Hs. pose proof (well_formed_length _ _ _ Hwf Hs) as Hlen.
  rewrite (detect_anomalies_rows w column s Hwf Hs Hlen). cbv zeta.
  eexists. split; [reflexivity|]. cbn [boolean_index index].
  set (cells := values (to_numeric s)). set (nums := numbers cells).
  rewrite (map_ext (is_anomaly nums)
             (fun c => match c with
                       | Num x => is_anomaly nums (Num x)
                       | _ => false
                       end)) by (intros []; reflexivity).
  rewrite (select_flag_count (fun x => is_anomaly nums (Num x))).
  - apply flagged_count.
  - unfold cells, to_numeric. cbn [values]. rewrite length_map. now symmetry.
Qed.

(** ** The numbers that summary_statistics prints *)

Lemma sorted_nth_le (s : list Q) i j :
  StronglySorted Qle s -> (i <= j)%nat -> (j < List.length s)%nat ->
  nth i s 0 <= nth j s 0.
Proof.
  intros Hs. revert i j. induction Hs as [|a r Hr IH Ha]; intros i j Hij Hj.
  - simpl in Hj. lia.
  - destruct j as [|j].
    + assert (i = 0%nat) as -> by lia. apply Qle_refl.
    + simpl in Hj. destruct i as [|i].
      * simpl. rewrite Forall_forall in Ha. apply Ha. apply nth_In. lia.
      * simpl. apply IH; lia.
Qed.

Lemma floor_parts (z k : Z) (f : Q) :
  inject_Z z == inject_Z k + f -> 0 <= f -> f < 1 -> z = k /\ f == 0.
Proof.
  intros He H0 H1.
  assert (Hle : inject_Z k <= inject_Z z) by lra.
  assert (Hlt : inject_Z z < inject_Z (k + 1)).
  { rewrite inject_Z_plus. change (inject_Z 1) with 1. lra. }
  rewrite <- Zle_Qle in Hle. rewrite <- Zlt_Qlt in Hlt.
  assert (z = k) by lia. subst z. split; [reflexivity|lra].
Qed.

Lemma quantile_of_mono p p' l :
  l <> [] -> 0 <= p -> p <= p' -> p' <= 1 ->
  exists q q', quantile_of p l = Some q /\ quantile_of p' l = Some q' /\ q <= q'.
Proof.
  intros Hl H0 Hpp H1.
  destruct (quantile_of_spec p l Hl H0) as (k & f & He & Hf0 & Hf1 & Hq).
  destruct (quantile_of_spec p' l Hl) as (k' & f' & He' & Hf0' & Hf1' & Hq');
    [lra|].
  cbv zeta in *. set (n := List.length l) in *.
  rewrite Hq, Hq'. eexists. eexists. split; [reflexivity|]. split; [reflexivity|].
  assert (Hn : (0 < n)%nat).
  { unfold n. destruct l; [congruence|simpl; lia]. }
  pose proof (sort_sorted l) as Hs. pose proof (sort_length l) as Hlen.
  fold n in Hlen. set (s := sort l) in *.
  assert (HN : 0 <= inject_Z (Z.of_nat (n - 1))).
  { change 0 with (inject_Z 0). rewrite <- Zle_Qle. lia. }
  set (N := inject_Z (Z.of_nat (n - 1))) in *.
  assert (Hpos : p * N <= p' * N) by nra.
  assert (Hpos1 : p' * N <= N) by nra.
  assert (Hkk : (k <= k')%nat).
  { assert (H : inject_Z (Z.of_nat k) < inject_Z (Z.of_nat k' + 1)).
    { rewrite inject_Z_plus. change (inject_Z 1) with 1. lra. }
    rewrite <- Zlt_Qlt in H. lia. }
  assert (Hk' : (k' <= n - 1)%nat).
  { assert (H : inject_Z (Z.of_nat k') <= inject_Z (Z.of_nat (n - 1))).
    { fold N. lra. }
    rewrite <- Zle_Qle in H. lia. }
  set (h := Nat.min (k + 1) (n - 1)). set (h' := Nat.min (k' + 1) (n - 1)).
  assert (Hkh : nth k s 0 <= nth h s 0).
  { apply sorted_nth_le; [assumption|unfold h; lia|unfold h; lia]. }
  assert (Hkh' : nth k' s 0 <= nth h' s 0).
  { apply sorted_nth_le; [assumption|unfold h'; lia|unfold h'; lia]. }
  destruct (Nat.eq_dec k k') as [<-|Hne].
  - subst h'. fold h in Hkh' |- *.
    assert (Hff : f <= f') by lra.
    set (a := nth k s 0) in *. set (b := nth h s 0) in *. nra.
  - assert (Hhk : nth h s 0 <= nth k' s 0).
    { apply sorted_nth_le; [assumption|unfold h; lia|lia]. }
    set (a := nth k s 0) in *. set (b := nth h s 0) in *.
    set (a' := nth k' s 0) in *. set (b' := nth h' s 0) in *. nra.
Qed.

Lemma quantile_of_zero l lo :
  min_of l = Some lo -> exists q, quantile_of 0 l = Some q /\ q == lo.
Proof.
  intros Hlo. assert (Hl : l <> []) by (intros ->; discriminate).
  destruct (min_of_spec l Hl) as (lo' & Hlo' & Hnth & _).
  assert (E : lo' = lo) by congruence. rewrite E in Hnth.
  destruct (quantile_of_spec 0 l Hl) as (k & f & He & Hf0 & Hf1 & Hq); [lra|].
  cbv zeta in *. rewrite Hq. eexists. split; [reflexivity|].
  assert (Hz : inject_Z 0 == inject_Z (Z.of_nat k) + f).
  { change (inject_Z 0) with 0. lra. }
  destruct (floor_parts _ _ _ Hz Hf0 Hf1) as [Hk Hf].
  assert (k = 0%nat) as -> by lia. rewrite Hf, Hnth. ring.
Qed.

Lemma quantile_of_one l hi :
  max_of l = Some hi -> exists q, quantile_of 1 l = Some q /\ q == hi.
Proof.
  intros Hhi. assert (Hl : l <> []) by (intros ->; discriminate).
  destruct (max_of_spec l Hl) as (hi' & Hhi' & Hnth & _).
  assert (E : hi' = hi) by congruence. rewrite E in Hnth.
  destruct (quantile_of_spec 1 l Hl) as (k & f & He & Hf0 & Hf1 & Hq); [lra|].
  cbv zeta in *. rewrite Hq. eexists. split; [reflexivity|].
  assert (Hz : inject_Z (Z.of_nat (List.length l - 1)) == inject_Z (Z.of_nat k) + f)
    by lra.
  destruct (floor_parts _ _ _ Hz Hf0 Hf1) as [Hk Hf].
  assert (k = (List.length l - 1)%nat) as -> by lia. rewrite Hf, Hnth. ring.
Qed.

Lemma quantile_of_between p l lo hi :
  min_of l = Some lo -> max_of l = Some hi -> 0 <= p -> p <= 1 ->
  exists q, quantile_of p l = Some q /\ lo <= q <= hi.
Proof.
  intros Hlo Hhi H0 H1. assert (Hl : l <> []) by (intros ->; discriminate).
  destruct (quantile_of_zero l lo Hlo) as (q0 & Hq0 & E0).
  destruct (quantile_of_one l hi Hhi) as (q1 & Hq1 & E1).
  destruct (quantile_of_mono 0 p l Hl) as (a & q & Ha & Hq & Haq); try lra.
  destruct (quantile_of_mono p 1 l Hl) as (q' & b & Hq' & Hb & Hqb); try lra.
  exists q. split; [assumption|].
  assert (a = q0) by congruence. assert (b = q1) by congruence.
  assert (q' = q) by congruence. subst. lra.
Qed.

Lemma qsum_range lo hi l :
  Forall (fun q => lo <= q <= hi) l ->
  qlen l * lo <= qsum l <= qlen l * hi.
Proof.
  induction 1 as [|a r Ha Hr IH].
  - change (qlen []) with 0. change (qsum []) with 0. lra.
  - rewrite qlen_cons. change (qsum (a :: r)) with (a + qsum r). lra.
Qed.

Lemma mean_of_range lo hi l m :
  Forall (fun q => lo <= q <= hi) l -> mean_of l = Some m -> lo <= m <= hi.
Proof.
  intros Hall Hm. destruct l as [|a r]; [discriminate|].
  destruct (mean_of_spec (a :: r)) as (m' & Hm' & He); [discriminate|].
  assert (m' = m) by congruence. subst m'.
  pose proof (qsum_range lo hi _ Hall) as Hr.
  pose proof (qlen_pos a r) as Hn.
  set (n := qlen (a :: r)) in *. set (S := qsum (a :: r)) in *.
  split.
  - destruct (Qlt_le_dec m lo); [exfalso; nra|assumption].
  - destruct (Qlt_le_dec hi m); [exfalso; nra|assumption].
Qed.

Lemma min_max_range l lo hi :
  min_of l = Some lo -> max_of l = Some hi ->
  Forall (fun q => lo <= q <= hi) l.
Proof.
  intros Hlo Hhi. assert (Hl : l <> []) by (intros ->; discriminate).
  destruct (min_of_spec l Hl) as (lo' & Hlo' & _ & _ & Hmin).
  destruct (max_of_spec l Hl) as (hi' & Hhi' & _ & _ & Hmax).
  assert (lo' = lo) by congruence. assert (hi' = hi) by congruence. subst.
  apply Forall_forall. intros x Hx. split; [now apply Hmin|now apply Hmax].
Qed.

Lemma flat_map_In_split {A B : Type} (f : A -> list B) (l : list A) (a : A) :
  In a l -> exists l1 l2, flat_map f l = l1 ++ f a ++ l2.
Proof.
  intros H. destruct (in_split _ _ H) as (p & q & ->).
  rewrite flat_map_app. exists (flat_map f p), (flat_map f q). reflexivity.
Qed.

(** X10. For a numeric column that holds at least one number,
    [summary_statistics] prints the block of that column with all seven
    numbers defined, and the printed numbers are ordered: minimum, lower
    quartile, middle quartile, upper quartile and maximum come in this
    order, and the median lies between minimum and maximum. *)
Theorem summary_statistics_ordered (df : DataFrame) (c : string) :
  In c (select_dtypes_number df) ->
  numbers (values (col c df)) <> [] ->
  exists before after m md lo hi q1 q2 q3,
    summary_statistics df =
      before ++
      [ [OText newline; OText "Summary Statistics for '"; OText c; OText "':"];
        [OText "Mean: "; ONum (Some m)];
        [OText "Median: "; ONum (Some md)];
        [OText "Min: "; ONum (Some lo); OText ", Max: "; ONum (Some hi)];
        [OText "Quartiles:"];
        [OQuantiles [(1 # 4, Some q1); (1 # 2, Some q2); (3 # 4, Some q3)]] ] ++
      after /\
    lo <= q1 /\ q1 <= q2 /\ q2 <= q3 /\ q3 <= hi /\ lo <= md <= hi.
Proof.
  intros Hin Hl.
  destruct (flat_map_In_split (summary_block df) _ c Hin) as (before & after & Hsplit).
  unfold summary_statistics. rewrite Hsplit.
  unfold summary_block, mean, median, smin, smax, quantile. cbn [map].
  set (l := numbers (values (col c df))) in *.
  destruct (min_of_spec l Hl) as (lo & Hlo & _).
  destruct (max_of_spec l Hl) as (hi & Hhi & _).
  destruct (median_of_some l Hl) as (md & Hmd).
  destruct (mean_of_spec l Hl) as (m & Hm & _).
  destruct (quantile_of_mono (1 # 4) (1 # 2) l Hl) as (q1 & q2 & Hq1 & Hq2 & H12);
    try lra.
  destruct (quantile_of_mono (1 # 2) (3 # 4) l Hl) as (q2' & q3 & Hq2' & Hq3 & H23);
    try lra.
  assert (q2' = q2) by congruence. subst q2'.
  destruct (quantile_of_between (1 # 4) l lo hi Hlo Hhi) as (a & Ha & Ha1 & _);
    try lra.
  destruct (quantile_of_between (3 # 4) l lo hi Hlo Hhi) as (b & Hb & _ & Hb1);
    try lra.
  assert (a = q1) by congruence. assert (b = q3) by congruence. subst a b.
  exists before, after, m, md, lo, hi, q1, q2, q3.
  rewrite Hlo, Hhi, Hmd, Hm, Hq1, Hq2, Hq3.
  split; [reflexivity|].
  repeat (split; [assumption|]).
  apply (median_of_range lo hi l md); [|assumption].
  now apply min_max_range.
Qed.

(** ** clean_data followed by summary_statistics *)

Lemma getitem_In_name name cols s :
  getitem name cols = Some s -> In (name, s) cols.
Proof.
  induction cols as [|[n s0] r IH]; simpl; [discriminate|].
  destruct (String.eqb_spec n name) as [->|_].
  - intros [= ->]. now left.
  - intros H. right. now apply IH.
Qed.

Lemma min_of_In l lo : min_of l = Some lo -> In lo l.
Proof.
  intros H. assert (Hl : l <> []) by (intros ->; discriminate).
  destruct (min_of_spec l Hl) as (lo' & Hlo' & _ & Hin & _). congruence.
Qed.

Lemma max_of_In l hi : max_of l = Some hi -> In hi l.
Proof.
  intros H. assert (Hl : l <> []) by (intros ->; discriminate).
  destruct (max_of_spec l Hl) as (hi' & Hhi' & _ & Hin & _). congruence.
Qed.

Lemma quantile_of_range lo hi p l q :
  Forall (fun x => lo <= x <= hi) l -> 0 <= p -> p <= 1 ->
  quantile_of p l = Some q -> lo <= q <= hi.
Proof.
  intros Hall H0 H1 Hq. assert (Hl : l <> []) by (intros ->; discriminate).
  destruct (min_of_spec l Hl) as (a & Ha & _ & Hina & _).
  destruct (max_of_spec l Hl) as (b & Hb & _ & Hinb & _).
  destruct (quantile_of_between p l a b Ha Hb H0 H1) as (q' & Hq' & Hr).
  assert (q' = q) by congruence. subst q'.
  rewrite Forall_forall in Hall.
  pose proof (Hall a Hina). pose proof (Hall b Hinb). lra.
Qed.

Lemma printed_in_range lo hi s :
  Forall (fun x => lo <= x <= hi) (numbers (values s)) -> printed_within lo hi s.
Proof.
  intros Hall q Hq. unfold mean, median, smin, smax, quantile in Hq.
  simpl in Hq. pose proof (proj1 (Forall_forall _ _) Hall) as Hin.
  destruct Hq as [H|[H|[H|[H|[H|[H|[H|[]]]]]]]].
  - exact (mean_of_range lo hi _ q Hall H).
  - exact (median_of_range lo hi _ q Hall H).
  - apply Hin. now apply min_of_In.
  - apply Hin. now apply max_of_In.
  - apply (quantile_of_range lo hi (1 # 4) _ q Hall); [lra|lra|assumption].
  - apply (quantile_of_range lo hi (1 # 2) _ q Hall); [lra|lra|assumption].
  - apply (quantile_of_range lo hi (3 # 4) _ q Hall); [lra|lra|assumption].
Qed.

Lemma numbers_all_Num lo hi l :
  Forall (fun c => exists q, c = Num q /\ lo <= q <= hi) l ->
  Forall (fun q => lo <= q <= hi) (numbers l).
Proof.
  intros H. apply numbers_range. eapply Forall_impl; [|exact H]. intros c Hc. now right.
Qed.

Lemma numbers_all_NA l : Forall (fun c => c = NA) l -> numbers l = [].
Proof. induction 1 as [|c r -> _ IH]; [reflexivity|exact IH]. Qed.

(** X11. [summary_statistics] after [clean_data]: when the table read has
    an Age column, the cleaned table's Age column is among the columns
    summarised, whatever its dtype was before, and each of the seven
    numbers printed for it lies in [0,120]; likewise Cholesterol is
    summarised and its numbers lie in [50,400]. *)
Theorem clean_data_summary_ranges (df : DataFrame) :
  let cleaned := fst (clean_data df) in
  (has_column "Age" df = true ->
   In "Age" (select_dtypes_number cleaned) /\
   printed_within 0 120 (col "Age" cleaned)) /\
  (has_column "Cholesterol" df = true ->
   In "Cholesterol" (select_dtypes_number cleaned) /\
   printed_within 50 400 (col "Cholesterol" cleaned)).
Proof.
  cbv zeta. split; intros Hh; unfold has_column in Hh.
  - destruct (getitem "Age" (columns df)) as [s0|] eqn:E0; [|discriminate].
    assert (HD : getitem "Age" (columns (fst (clean_data df))) =
                 Some (age_series (select_series (mask_not (duplicated df)) s0))).
    { unfold clean_data. cbn [fst].
      now rewrite clean_columns_age, getitem_drop_duplicates, E0. }
    split.
    + apply select_dtypes_number_In. eexists. split.
      * apply getitem_In_name. exact HD.
      * reflexivity.
    + unfold col. rewrite HD. apply printed_in_range. apply numbers_range.
      cbn [age_series values]. apply Forall_map_cases. intros c.
      destruct (age_cell_cases c) as [->|(q & -> & Hq)]; eauto.
  - destruct (getitem "Cholesterol" (columns df)) as [s0|] eqn:E0; [|discriminate].
    assert (HD : getitem "Cholesterol" (columns (fst (clean_data df))) =
                 Some (cholesterol_series
                         (select_series (mask_not (duplicated df)) s0))).
    { unfold clean_data. cbn [fst].
      now rewrite clean_columns_cholesterol, getitem_drop_duplicates, E0. }
    destruct (cholesterol_series_clean
                (select_series (mask_not (duplicated df)) s0)) as [Hd Hc].
    split.
    + apply select_dtypes_number_In. eexists. split.
      * apply getitem_In_name. exact HD.
      * exact Hd.
    + unfold col. rewrite HD. apply printed_in_range.
      destruct Hc as [Hna|Hnum].
      * rewrite (numbers_all_NA _ Hna). constructor.
      * now apply numbers_all_Num.
Qed.

(** ** visualize_data *)

(** X12. The calls of [visualize_data]: without a Cholesterol column no
    call is made at all. The charts drawn are, in this order, the
    histogram of Cholesterol (with its density curve) when Cholesterol
    exists, the box plot of Cholesterol by Gender when both exist, the
    line plot of Cholesterol over Visit Date when both exist, and the
    scatter plot of Cholesterol against Age when both exist, each on the
    table itself. Every chart is followed by its own [plt.show()] before
    the next chart, and a chart only names columns that the table has. *)
Theorem visualize_data_charts (df : DataFrame) :
  let calls := visualize_data df in
  (has_column "Cholesterol" df = false -> calls = []) /\
  filter is_chart calls =
    (if has_column "Cholesterol" df
     then [Histplot (col "Cholesterol" df) true] else []) ++
    (if has_column "Cholesterol" df && has_column "Gender" df
     then [Boxplot "Gender" "Cholesterol" df] else []) ++
    (if has_column "Visit Date" df && has_column "Cholesterol" df
     then [Lineplot "Visit Date" "Cholesterol" df] else []) ++
    (if has_column "Age" df && has_column "Cholesterol" df
     then [Scatterplot "Age" "Cholesterol" df] else []) /\
  filter (fun p => is_chart p || is_show p) calls =
    flat_map (fun chart => [chart; ShowPlot]) (filter is_chart calls) /\
  (forall p, In p calls ->
     match p with
     | Histplot s _ => has_column "Cholesterol" df = true /\ s = col "Cholesterol" df
     | Boxplot x y d | Lineplot x y d | Scatterplot x y d =>
         d = df /\ has_column x df = true /\ has_column y df = true
     | _ => True
     end).
Proof.
  cbv zeta. unfold visualize_data.
  destruct (has_column "Cholesterol" df) eqn:EC, (has_column "Gender" df) eqn:EG,
    (has_column "Visit Date" df) eqn:EV, (has_column "Age" df) eqn:EA;
    cbn [andb orb app filter flat_map is_show is_chart];
    (split; [try discriminate; reflexivity|]);
    (split; [reflexivity|]);
    (split; [reflexivity|]);
    intros p Hp; cbn [In] in Hp;
    repeat (destruct Hp as [<-|Hp]; [auto|]); destruct Hp.
Qed.

(** ** main *)

Lemma run_plots_returns draw calls :
  snd (run_plots draw calls) = None -> fst (run_plots draw calls) = calls.
Proof.
  induction calls as [|c r IH]; simpl; [reflexivity|].
  destruct (draw c); [discriminate|].
  destruct (run_plots draw r) as [done stopped]. simpl in *.
  intros H. now rewrite IH.
Qed.

Lemma detect_anomalies_no_raise w column :
  exists anomalies printed,
    detect_anomalies column w =
      (mkWorld (table w) (stdout w ++ printed), Returned anomalies).
Proof.
  destruct (getitem column (columns (table w))) as [s|] eqn:Hs.
  - rewrite (detect_anomalies_present w column s Hs). unfold loc.
    destruct (loc_positions_total _ _ (anomaly_labels_in_index (table w) s))
      as [ps ->].
    eexists. eexists. reflexivity.
  - unfold detect_anomalies, bind, get_table, has_column. rewrite Hs.
    cbn. eexists. eexists. reflexivity.
Qed.

Lemma detect_anomalies_absent w column :
  has_column column (table w) = false ->
  detect_anomalies column w =
    (mkWorld (table w)
       (stdout w ++ [[OText "No column '"; OText column; OText "' for anomaly detection."]]),
     Returned empty_frame).
Proof.
  intros H. unfold detect_anomalies, bind, get_table. rewrite H. reflexivity.
Qed.

Lemma clean_data_has_cholesterol df :
  has_column "Cholesterol" (fst (clean_data df)) = has_column "Cholesterol" df.
Proof.
  unfold has_column, clean_data. cbn [fst].
  rewrite clean_columns_cholesterol, getitem_drop_duplicates.
  now destruct (getitem "Cholesterol" (columns df)).
Qed.

(** X13. How a whole run ends. When [pd.read_csv] raises, nothing has
    been printed and the run ends with that exception. When a plotting
    call raises, the run ends there, after the output of [load_data] and
    [clean_data] and the plotting calls that returned. Otherwise all the
    calls of [visualize_data] on the cleaned table are made,
    [detect_anomalies] returns and leaves the table as it was, and the run
    shows, in this order, the output of [load_data], of [clean_data], the
    plotting calls, the lines that [detect_anomalies] prints for the
    cleaned table and the lines of [summary_statistics] for it. *)
Theorem main_outcome (read_csv : string -> csv_result)
    (draw : plot_call -> option string) :
  match read_csv "healthcare_messy_data.csv" with
  | CsvError m => main read_csv draw = ([], Some (LoadFailure m))
  | CsvTable df =>
      let cleaned := fst (clean_data df) in
      let plotted := run_plots draw (visualize_data cleaned) in
      let searched := detect_anomalies "Cholesterol" (mkWorld cleaned []) in
      let shown :=
        fst (load_data read_csv "healthcare_messy_data.csv") ++
        map Printed (snd (clean_data df)) ++ map Drawn (fst plotted) in
      match snd plotted with
      | Some m => main read_csv draw = (shown, Some (PlotFailure m))
      | None =>
          fst plotted = visualize_data cleaned /\
          (exists anomalies, snd searched = Returned anomalies) /\
          table (fst searched) = cleaned /\
          main read_csv draw =
            (shown ++ map Printed (stdout (fst searched)) ++
             map Printed (summary_statistics cleaned), None)
      end
  end.
Proof.
  unfold main, load_data.
  destruct (read_csv "healthcare_messy_data.csv") as [df|m]; [|reflexivity].
  cbv zeta. destruct (clean_data df) as [cleaned lines]. cbn [fst snd].
  pose proof (run_plots_returns draw (visualize_data cleaned)) as Hr.
  destruct (run_plots draw (visualize_data cleaned)) as [drawn [m|]]; cbn [fst snd] in *.
  - reflexivity.
  - split; [exact (Hr eq_refl)|].
    destruct (detect_anomalies_no_raise (mkWorld cleaned []) "Cholesterol")
      as (anomalies & printed & ->).
    cbn [stdout table app fst snd].
    split; [now exists anomalies|]. split; [reflexivity|].
    now rewrite <- !app_assoc.
Qed.

(** X14. A file without a Cholesterol column: the run makes no plotting
    call, so it completes on every plotting surface; it prints what
    [load_data] and [clean_data] print, then the line saying that there is
    no column 'Cholesterol', then the summaries. *)
Theorem main_without_cholesterol (read_csv : string -> csv_result)
    (draw : plot_call -> option string) (df : DataFrame) :
  read_csv "healthcare_messy_data.csv" = CsvTable df ->
  has_column "Cholesterol" df = false ->
  main read_csv draw =
    (fst (load_data read_csv "healthcare_messy_data.csv") ++
     map Printed (snd (clean_data df)) ++
     [Printed [OText "No column '"; OText "Cholesterol";
               OText "' for anomaly detection."]] ++
     map Printed (summary_statistics (fst (clean_data df))), None).
Proof.
  intros Hread Hc. unfold main, load_data. rewrite Hread.
  pose proof (clean_data_has_cholesterol df) as Hk. rewrite Hc in Hk.
  destruct (clean_data df) as [cleaned lines]. cbn [fst snd] in *.
  assert (Hv : visualize_data cleaned = []).
  { unfold visualize_data. rewrite Hk. rewrite !andb_false_r. reflexivity. }
  rewrite Hv. cbn [run_plots].
  rewrite (detect_anomalies_absent (mkWorld cleaned []) "Cholesterol" Hk).
  cbn [stdout table app map]. rewrite <- !app_assoc. reflexivity.
Qed.

End WholePipeline.

(** * The theorems at concrete tables *)

Lemma clean_data_age_witness :
  getitem "Age" (columns age_run) =
    Some (mkSeries Object [Str "42"; Str "abc"; Num 130; Num (-1 # 1)]) /\
  exists s',
    getitem "Age" (columns (fst (run_clean_data age_run))) = Some s' /\
    nth_error (values s') 0 = Some (Num 42) /\
    nth_error (values s') 1 = Some NA /\
    nth_error (values s') 2 = Some NA.
Proof.
  split; [reflexivity|].
  destruct (@clean_data_age digits_conversions age_run
              (mkSeries Object [Str "42"; Str "abc"; Num 130; Num (-1 # 1)]) eq_refl)
    as (s' & Hs & _ & Hcells).
  exists s'. split; [exact Hs|]. split; [|split].
  - apply (proj2 (proj2 (Hcells 0%nat (Str "42") eq_refl)) 42); [reflexivity|].
    split; lra.
  - apply (proj1 (Hcells 1%nat (Str "abc") eq_refl)). reflexivity.
  - apply (proj1 (proj2 (Hcells 2%nat (Num 130) eq_refl)) 130); [reflexivity|].
    right. lra.
Defined.

Lemma clean_data_gender_witness :
  getitem "Gender" (columns gender_example) =
    Some (mkSeries Object
            [Str "M "; Str " f"; Str "Male"; Str "FEMALE"; Str "unknown"; Str ""; Str "x"]) /\
  exists s',
    getitem "Gender" (columns (fst (run_clean_data gender_example))) = Some s' /\
    nth_error (values s') 0 = Some (Str "male") /\
    nth_error (values s') 1 = Some (Str "female") /\
    nth_error (values s') 4 = Some NA.
Proof.
  split; [reflexivity|].
  destruct (proj1 (proj2 (@clean_data_gender digits_conversions))
              gender_example _ eq_refl)
    as (s' & Hs & _ & Hcells).
  exists s'. split; [exact Hs|]. split; [|split].
  - apply (proj1 (Hcells 0%nat (Str "M ") eq_refl)). left. reflexivity.
  - apply (proj1 (proj2 (Hcells 1%nat (Str " f") eq_refl))). left. reflexivity.
  - apply (proj2 (proj2 (Hcells 4%nat (Str "unknown") eq_refl))); discriminate.
Defined.

Lemma clean_data_phone_number_witness :
  getitem "Phone Number" (columns phone_example) =
    Some (mkSeries Object [Str "(555) 123-4567"; Str "123"; Str "abc"]) /\
  exists s',
    getitem "Phone Number" (columns (fst (run_clean_data phone_example))) = Some s' /\
    nth_error (values s') 0 = Some (Str "5551234567") /\
    nth_error (values s') 1 = Some NA.
Proof.
  split; [reflexivity|].
  destruct (proj1 (@clean_data_phone_number digits_conversions)
              phone_example _ eq_refl)
    as (s' & Hs & _ & Hcells).
  exists s'. split; [exact Hs|]. split.
  - apply (proj1 (proj2 (Hcells 0%nat (Str "(555) 123-4567") eq_refl))).
    vm_compute. lia.
  - apply (proj2 (proj2 (Hcells 1%nat (Str "123") eq_refl))).
    left. vm_compute. lia.
Defined.

Lemma clean_data_email_witness :
  getitem "Email" (columns email_example) =
    Some (mkSeries Object [Str "a@b.com"; Str "not-an-email"; NA]) /\
  exists s',
    getitem "Email" (columns (fst (run_clean_data email_example))) = Some s' /\
    nth_error (values s') 0 = Some (Str "a@b.com") /\
    nth_error (values s') 2 = Some NA.
Proof.
  split; [reflexivity|].
  destruct (proj1 (@clean_data_email digits_conversions)
              email_example _ eq_refl)
    as (s' & Hs & _ & Hcells).
  exists s'. split; [exact Hs|]. split.
  - apply (proj1 (Hcells 0%nat (Str "a@b.com") eq_refl)).
    simpl. right. left. reflexivity.
  - apply (proj2 (proj2 (Hcells 2%nat NA eq_refl))). reflexivity.
Defined.

Lemma clean_data_cholesterol_witness :
  getitem "Cholesterol" (columns mixed_cholesterol) =
    Some (mkSeries Object [Str "100"; Num 200; Str "300"; Str "9999"; Str "high"; NA]) /\
  exists s',
    getitem "Cholesterol" (columns (fst (run_clean_data mixed_cholesterol))) = Some s' /\
    nth_error (values s') 0 = Some (Num 100) /\
    nth_error (values s') 3 = Some (Num 200) /\
    nth_error (values s') 4 = Some (Num 200) /\
    nth_error (values s') 5 = Some (Num 200).
Proof.
  split; [reflexivity|].
  destruct (proj1 (@clean_data_cholesterol digits_conversions)
              mixed_cholesterol _ eq_refl)
    as (s' & Hs & _ & Hcells).
  exists s'. split; [exact Hs|]. split; [|split; [|split]].
  - apply (proj1 (Hcells 0%nat (Str "100") eq_refl) 100); [reflexivity|]. split; lra.
  - apply (proj2 (proj2 (Hcells 3%nat (Str "9999") eq_refl)) 9999); [reflexivity|].
    right. lra.
  - apply (proj1 (proj2 (Hcells 4%nat (Str "high") eq_refl))). reflexivity.
  - apply (proj1 (proj2 (Hcells 5%nat NA eq_refl))). reflexivity.
Defined.

Lemma detect_anomalies_absent_column_witness :
  getitem "Weight" (columns (table absent_run)) = None /\
  run_detect_anomalies "Weight" absent_run =
    (mkWorld cholesterol_example
       [[OText "No column '"; OText "Weight"; OText "' for anomaly detection."]],
     Returned empty_frame).
Proof.
  split; [reflexivity|].
  apply (@detect_anomalies_absent_column digits_conversions absent_run "Weight").
  reflexivity.
Defined.

Lemma detect_anomalies_zero_variance_witness :
  exists anomalies,
    run_detect_anomalies "x" constant_run =
      (mkWorld (table constant_run) (stdout constant_run ++ report "x" anomalies),
       Returned anomalies) /\
    index anomalies = [].
Proof.
  destruct (@detect_anomalies_zero_variance digits_conversions constant_run "x"
              (mkSeries Object [Num 5; NA; Str "5"; Str "abc"]) eq_refl eq_refl)
    as (_ & anomalies & Hrun & Hidx & _).
  - intros x y Hx Hy. simpl in Hx, Hy.
    destruct Hx as [<-|[<-|[]]]; destruct Hy as [<-|[<-|[]]]; reflexivity.
  - exists anomalies. split; assumption.
Defined.





Lemma summary_statistics_values_witness :
  exists m md lo hi q1 q2 q3,
    summary_statistics patients_example =
      [ [OText newline; OText "Summary Statistics for '"; OText "Age"; OText "':"];
        [OText "Mean: "; ONum (Some m)];
        [OText "Median: "; ONum (Some md)];
        [OText "Min: "; ONum (Some lo); OText ", Max: "; ONum (Some hi)];
        [OText "Quartiles:"];
        [OQuantiles [(1 # 4, q1); (1 # 2, q2); (3 # 4, q3)]] ] /\
    m == 40 /\ lo == 30 /\ hi == 50.
Proof.
  destruct (proj1 summary_statistics_values patients_example)
    as (blocks & Hsum & HF).
  change (select_dtypes_number patients_example) with ["Age"] in HF.
  inversion HF as [|c block l bs Hb Hrest Hc Hbs]. subst.
  inversion Hrest. subst. cbv zeta in Hb.
  destruct Hb as (m & md & lo & hi & q1 & q2 & q3 & -> & Hm & Hmd & Hlo & Hhi & _).
  change (numbers (values (col "Age" patients_example))) with [30; 50] in *.
  destruct m as [m|]; [|discriminate Hm].
  destruct md as [md|]; [|discriminate (proj1 Hmd) || discriminate Hmd].
  destruct lo as [lo|]; [|discriminate Hlo].
  destruct hi as [hi|]; [|discriminate Hhi].
  exists m, md, lo, hi, q1, q2, q3.
  split; [rewrite Hsum; reflexivity|].
  destruct Hm as [_ Hm]. destruct Hlo as [Hlo1 Hlo2]. destruct Hhi as [Hhi1 Hhi2].
  change (qlen [30; 50]) with 2 in Hm. change (qsum [30; 50]) with (30 + (50 + 0)) in Hm.
  split; [lra|]. split.
  - destruct Hlo1 as [<-|[<-|[]]]; [reflexivity|].
    exfalso. apply (Hlo2 30 (or_introl eq_refl)). reflexivity.
  - destruct Hhi1 as [<-|[<-|[]]]; [|reflexivity].
    exfalso. apply (Hhi2 50 (or_intror (or_introl eq_refl))). reflexivity.
Defined.

(** The two rows of [twice_example] differ; one pass makes them equal and
    keeps both, a second pass drops the second. *)
Lemma clean_data_twice_counterexample :
  fst (run_clean_data twice_example) =
    mkFrame [0; 1]%nat [("Gender", mkSeries Object [Str "male"; Str "male"])] /\
  fst (run_clean_data (fst (run_clean_data twice_example))) =
    mkFrame [0]%nat [("Gender", mkSeries Object [Str "male"])] /\
  fst (run_clean_data (fst (run_clean_data twice_example))) <>
  fst (run_clean_data twice_example).
Proof.
  split; [vm_compute; reflexivity|]. split; [vm_compute; reflexivity|].
  vm_compute. intros H. discriminate H.
Qed.

Lemma clean_data_twice_witness :
  (getitem "Cholesterol" (columns distinct_run) =
     Some (mkSeries Object [Str "180"; Str "high"])) /\
  (exists s',
     getitem "Cholesterol" (columns (fst (run_clean_data distinct_run))) = Some s' /\
     ~ In NA (values s')) /\
  fst (run_clean_data (fst (run_clean_data distinct_run))) =
  fst (run_clean_data distinct_run).
Proof.
  pose proof (@clean_data_twice digits_conversions) as (_ & Htwice & Hfilled).
  split; [reflexivity|]. split.
  - apply (Hfilled distinct_run _ eq_refl eq_refl).
    exists (Str "180"), 180. split; [now left|]. split; [reflexivity|]. split; lra.
  - apply (proj2 (Htwice distinct_run)).
    + vm_compute. repeat constructor.
    + vm_compute. repeat constructor.
Defined.

Lemma clean_data_well_formed_witness :
  well_formed visits_example /\ well_formed (fst (run_clean_data visits_example)).
Proof.
  assert (H : well_formed visits_example).
  { split; [apply (seq_NoDup 3 0)|repeat constructor]. }
  split; [exact H|].
  exact (@clean_data_well_formed digits_conversions visits_example H).
Defined.

Lemma clean_data_other_columns_witness :
  getitem "Patient" (columns (fst (run_clean_data visits_example))) =
  Some (mkSeries Object [Str "ann"; Str "bob"]).
Proof.
  unfold run_clean_data.
  rewrite (@clean_data_other_columns digits_conversions visits_example "Patient");
    [reflexivity|discriminate..].
Defined.

Lemma detect_anomalies_small_sample_witness :
  (List.length (numbers (values (@to_numeric digits_conversions
                                   (col "Cholesterol" (table small_run))))) <= 9)%nat /\
  run_detect_anomalies "Cholesterol" small_run =
    (mkWorld (table small_run)
       (report "Cholesterol" (take_rows [] (table small_run))),
     Returned (take_rows [] (table small_run))).
Proof.
  assert (H : (List.length
                 (numbers (values (@to_numeric digits_conversions
                                   (col "Cholesterol" (table small_run)))))
               <= 9)%nat) by (simpl; lia).
  split; [exact H|].
  exact (proj1 (@detect_anomalies_small_sample digits_conversions small_run
                  "Cholesterol" _ eq_refl H)).
Defined.

Lemma detect_anomalies_few_rows_witness :
  exists anomalies,
    run_detect_anomalies "Cholesterol" outlier_run =
      (mkWorld (table outlier_run)
         (stdout outlier_run ++ report "Cholesterol" anomalies),
       Returned anomalies) /\
    (9 * List.length (index anomalies) <= 101)%nat.
Proof.
  apply (@detect_anomalies_few_rows digits_conversions outlier_run "Cholesterol"
           (mkSeries Numeric (map Num (hundred ++ [20])))).
  - split.
    + apply seq_NoDup.
    + constructor; [vm_compute; reflexivity|constructor].
  - reflexivity.
Defined.

Lemma summary_statistics_ordered_witness :
  exists before after m md lo hi q1 q2 q3,
    summary_statistics patients_example =
      before ++
      [ [OText newline; OText "Summary Statistics for '"; OText "Age"; OText "':"];
        [OText "Mean: "; ONum (Some m)];
        [OText "Median: "; ONum (Some md)];
        [OText "Min: "; ONum (Some lo); OText ", Max: "; ONum (Some hi)];
        [OText "Quartiles:"];
        [OQuantiles [(1 # 4, Some q1); (1 # 2, Some q2); (3 # 4, Some q3)]] ] ++
      after /\
    lo <= q1 /\ q1 <= q2 /\ q2 <= q3 /\ q3 <= hi /\ lo <= md <= hi.
Proof.
  apply (summary_statistics_ordered patients_example "Age").
  - left. reflexivity.
  - discriminate.
Defined.

Lemma main_without_cholesterol_witness :
  run_main read_gender_csv no_display =
    (fst (load_data read_gender_csv "healthcare_messy_data.csv") ++
     map Printed (snd (run_clean_data gender_example)) ++
     [Printed [OText "No column '"; OText "Cholesterol";
               OText "' for anomaly detection."]] ++
     map Printed (summary_statistics (fst (run_clean_data gender_example))), None).
Proof.
  exact (@main_without_cholesterol digits_conversions read_gender_csv no_display
           gender_example eq_refl eq_refl).
Defined.
